(** * StockFlow web client: a shallow embedding of its controllers

    The development follows the TypeScript sources of the client:

    - [Js]: the few ECMAScript string and truthiness operations the handlers
      rely on ([startsWith], [trim], [split], [||]);
    - [Types]: the data contracts of [types.ts];
    - [Gateway]: [services/geminiService.ts], with the request recipes, the
      backend seen as a function from requests to outcomes, and [JSON.parse];
    - [FileUpload]: [components/FileUpload.tsx], media ingestion;
    - [App]: the director page, its generation state and handlers;
    - [ResultDisplay]: the two-phase director workflow component, as a step
      function over user events and call settlements;
    - [DirectorPage]: what the page renders, and the page together with the
      component it mounts;
    - [WallpaperGenerator]: the style library handlers;
    - [StockSensei]: the market insight fetcher;
    - [Samples]: the inputs and runs the examples use.

    The properties follow, one module for each part.

    Asynchronous handlers receive the outcome of what they await (a file
    read, a backend call, a storage write) as an argument; what a handler
    does to the outside world is recorded as a list of effects.  The
    handlers read a response at the type the gateway declares for it; what
    the gateway returns at run time is the subject of [Gateway], where a
    response is a JSON value.

    A JavaScript string is modelled by a [string] whose characters stand for
    code units below 256. *)

From Stdlib Require Import Bool List String Ascii NArith Lia.
From Stdlib Require Import DecimalString.
Import ListNotations.
Open Scope string_scope.

Set Warnings "-register-all".

(* ================================================================== *)
(** ** ECMAScript helpers *)

Module Js.

(** A thrown value.  [message] is [None] when the thrown value has no
    [message] property, and [Some m] otherwise; [new Error()] carries the
    empty message. *)
Record Error := mkError { message : option string }.

(** The result of awaiting a promise: rejected with a thrown value, or
    fulfilled. *)
Inductive Settled (A : Type) :=
| Rejected (e : Error)
| Fulfilled (a : A).
Arguments Rejected {A} e.
Arguments Fulfilled {A} a.

Definition new_Error (m : string) : Error := mkError (Some m).

(** Truthiness of a value of type [string | undefined]. *)
Definition truthy (v : option string) : bool :=
  match v with
  | Some EmptyString => false
  | Some _ => true
  | None => false
  end.

(** [a || b] where [a : string | undefined] and [b : string]. *)
Definition or_else (a : option string) (b : string) : string :=
  match a with
  | Some (String c s) => String c s
  | _ => b
  end.

(** [a || b] where both sides may be undefined. *)
Definition or_opt (a b : option string) : option string :=
  if truthy a then a else b.

(** [s.startsWith(p)] *)
Definition startsWith (s p : string) : bool := String.prefix p s.

(** White space and line terminators of ECMAScript among the code units
    below 256: TAB, LF, VT, FF, CR, SP and NBSP. *)
Definition is_white_space (c : ascii) : bool :=
  let n := nat_of_ascii c in
  (Nat.eqb n 9 || Nat.eqb n 10 || Nat.eqb n 11 || Nat.eqb n 12
   || Nat.eqb n 13 || Nat.eqb n 32 || Nat.eqb n 160)%bool.

Fixpoint trimStart (s : string) : string :=
  match s with
  | String c s' => if is_white_space c then trimStart s' else s
  | EmptyString => EmptyString
  end.

(** [trimEnd] keeps a character when it is not white space or when
    something that is kept follows it. *)
Fixpoint trimEnd (s : string) : string :=
  match s with
  | EmptyString => EmptyString
  | String c s' =>
      match trimEnd s' with
      | EmptyString => if is_white_space c then EmptyString else String c EmptyString
      | r => String c r
      end
  end.

(** [s.trim()] *)
Definition trim (s : string) : string := trimEnd (trimStart s).

(** Every character of [s] is white space (in particular, [s] is empty). *)
Fixpoint blank (s : string) : bool :=
  match s with
  | EmptyString => true
  | String c s' => is_white_space c && blank s'
  end.

(** [s.split(sep)] for a one-character separator: the pieces between the
    occurrences of [sep], never an empty array. *)
Fixpoint split (sep : ascii) (s : string) : list string :=
  match s with
  | EmptyString => [EmptyString]
  | String c s' =>
      if Ascii.eqb c sep then EmptyString :: split sep s'
      else match split sep s' with
           | piece :: rest => String c piece :: rest
           | [] => [String c EmptyString]
           end
  end.

(** [arr[i]]: undefined when out of range. *)
Definition index (arr : list string) (i : nat) : option string := nth_error arr i.

(** [n.toString()] for a non-negative integer. *)
Definition Number_toString (n : N) : string :=
  NilZero.string_of_uint (N.to_uint n).

(** [s.includes(c)] for a one-character [c]. *)
Fixpoint includes (s : string) (c : ascii) : bool :=
  match s with
  | EmptyString => false
  | String d s' => (Ascii.eqb d c || includes s' c)%bool
  end.

End Js.

(* ================================================================== *)
(** ** types.ts *)

Module File.
(** The part of a browser [File] the client reads. *)
Record t := mk { name : string; size : N; type : string }.
End File.

Module Types.

Inductive MediaType := image | video | text.

Record MediaFile := mkMediaFile {
  file : option File.t;
  previewUrl : option string;
  type : MediaType;
  base64Data : option string;
  mimeType : option string;
  textContent : option string
}.

Record DirectorResponse := mkDirectorResponse {
  title : option string;
  analysis : string;
  prompt : string
}.

Record StockSenseiResponse := mkStockSenseiResponse {
  titles : list string;
  bestTitle : string;
  seo_keywords : string
}.

Module MarketEvent.
Record t := mk {
  name : string;
  keywords : list string
}.
End MarketEvent.

Record MarketInsight := mkMarketInsight {
  trendingThemes : list (string * string);
  upcomingEvents : list MarketEvent.t;
  hotKeywords : list string;
  commercialAdvice : string
}.

Record GenerationState := mkGenerationState {
  isLoading : bool;
  result : option DirectorResponse;
  error : option string
}.

Module SavedStyle.
Record t := mk {
  id : string;
  name : string;
  analysis : string;
  thumbnailUrl : string
}.
End SavedStyle.

End Types.

(* ================================================================== *)
(** ** JSON values and [JSON.parse] *)

Module Json.

(** A parsed JSON value.  A number keeps its literal text; an object keeps
    its members in textual order. *)
Inductive json :=
| JNull
| JBool (b : bool)
| JNumber (literal : string)
| JString (s : string)
| JArray (items : list json)
| JObject (members : list (string * json)).

(** [o.key] on an object: the value of the last member of that name (a later
    duplicate overrides an earlier one), and undefined otherwise. *)
Fixpoint get_member (key : string) (members : list (string * json)) : option json :=
  match members with
  | [] => None
  | (k, v) :: rest =>
      match get_member key rest with
      | Some v' => Some v'
      | None => if String.eqb k key then Some v else None
      end
  end.

Definition get (key : string) (j : json) : option json :=
  match j with
  | JObject members => get_member key members
  | _ => None
  end.

Definition has (key : string) (j : json) : bool :=
  match get key j with Some _ => true | None => false end.

(** *** The parser *)

Definition is_json_space (c : ascii) : bool :=
  let n := nat_of_ascii c in
  (Nat.eqb n 32 || Nat.eqb n 9 || Nat.eqb n 10 || Nat.eqb n 13)%bool.

Fixpoint skip_space (cs : list ascii) : list ascii :=
  match cs with
  | c :: cs' => if is_json_space c then skip_space cs' else cs
  | [] => []
  end.

Definition is_digit (c : ascii) : bool :=
  let n := nat_of_ascii c in (Nat.leb 48 n && Nat.leb n 57)%bool.

Definition hex_value (c : ascii) : option nat :=
  let n := nat_of_ascii c in
  if (Nat.leb 48 n && Nat.leb n 57)%bool then Some (n - 48)
  else if (Nat.leb 65 n && Nat.leb n 70)%bool then Some (n - 55)
  else if (Nat.leb 97 n && Nat.leb n 102)%bool then Some (n - 87)
  else None.

Fixpoint take_digits (cs : list ascii) : list ascii * list ascii :=
  match cs with
  | c :: cs' =>
      if is_digit c then let (ds, rest) := take_digits cs' in (c :: ds, rest)
      else ([], cs)
  | [] => ([], [])
  end.

(** The simple escapes of a JSON string. *)
Definition simple_escape (c : ascii) : option ascii :=
  let n := nat_of_ascii c in
  if Nat.eqb n 34 then Some (ascii_of_nat 34)        (* quotation mark *)
  else if Nat.eqb n 92 then Some (ascii_of_nat 92)   (* reverse solidus *)
  else if Nat.eqb n 47 then Some (ascii_of_nat 47)   (* solidus *)
  else if Nat.eqb n 98 then Some (ascii_of_nat 8)    (* b *)
  else if Nat.eqb n 102 then Some (ascii_of_nat 12)  (* f *)
  else if Nat.eqb n 110 then Some (ascii_of_nat 10)  (* n *)
  else if Nat.eqb n 114 then Some (ascii_of_nat 13)  (* r *)
  else if Nat.eqb n 116 then Some (ascii_of_nat 9)   (* t *)
  else None.

(** The characters of a string literal after its opening quotation mark, up
    to and including the closing one.  A four-digit escape is read when it
    names a code unit below 256. *)
Fixpoint parse_string_body (fuel : nat) (cs : list ascii) : option (string * list ascii) :=
  match fuel with
  | O => None
  | S fuel' =>
      match cs with
      | [] => None
      | c :: rest =>
          let n := nat_of_ascii c in
          if Nat.eqb n 34 then Some (EmptyString, rest)
          else if Nat.eqb n 92 then
            match rest with
            | e :: rest' =>
                if Nat.eqb (nat_of_ascii e) 117 then
                  match rest' with
                  | h1 :: h2 :: h3 :: h4 :: rest'' =>
                      match hex_value h1, hex_value h2, hex_value h3, hex_value h4 with
                      | Some 0, Some 0, Some a, Some b =>
                          match parse_string_body fuel' rest'' with
                          | Some (s, out) => Some (String (ascii_of_nat (16 * a + b)) s, out)
                          | None => None
                          end
                      | _, _, _, _ => None
                      end
                  | _ => None
                  end
                else
                  match simple_escape e with
                  | Some d =>
                      match parse_string_body fuel' rest' with
                      | Some (s, out) => Some (String d s, out)
                      | None => None
                      end
                  | None => None
                  end
            | [] => None
            end
          else if Nat.ltb n 32 then None
          else
            match parse_string_body fuel' rest with
            | Some (s, out) => Some (String c s, out)
            | None => None
            end
      end
  end.

(** A number literal: an optional minus sign, an integer part without a
    leading zero, an optional fraction, an optional exponent. *)
Definition parse_number (cs : list ascii) : option (string * list ascii) :=
  let (sign, cs1) :=
    match cs with
    | c :: r => if Nat.eqb (nat_of_ascii c) 45 then ([c], r) else ([], cs)
    | [] => ([], cs)
    end in
  let int_part :=
    match cs1 with
    | c :: r =>
        if Nat.eqb (nat_of_ascii c) 48 then Some ([c], r)
        else if is_digit c then let (ds, r') := take_digits r in Some (c :: ds, r')
        else None
    | [] => None
    end in
  match int_part with
  | None => None
  | Some (ints, cs2) =>
      let frac_part :=
        match cs2 with
        | c :: r =>
            if Nat.eqb (nat_of_ascii c) 46 then
              match take_digits r with
              | ([], _) => None
              | (ds, r') => Some (c :: ds, r')
              end
            else Some ([], cs2)
        | [] => Some ([], cs2)
        end in
      match frac_part with
      | None => None
      | Some (fracs, cs3) =>
          let exp_part :=
            match cs3 with
            | c :: r =>
                if (Nat.eqb (nat_of_ascii c) 101 || Nat.eqb (nat_of_ascii c) 69)%bool then
                  let (esign, r1) :=
                    match r with
                    | s :: r' =>
                        if (Nat.eqb (nat_of_ascii s) 43 || Nat.eqb (nat_of_ascii s) 45)%bool
                        then ([s], r') else ([], r)
                    | [] => ([], r)
                    end in
                  match take_digits r1 with
                  | ([], _) => None
                  | (ds, r') => Some (c :: esign ++ ds, r')
                  end
                else Some ([], cs3)
            | [] => Some ([], cs3)
            end in
          match exp_part with
          | None => None
          | Some (exps, cs4) =>
              Some (string_of_list_ascii (sign ++ ints ++ fracs ++ exps), cs4)
          end
      end
  end.

(** [expect w cs]: [cs] without its prefix [w]. *)
Fixpoint expect (w : list ascii) (cs : list ascii) : option (list ascii) :=
  match w, cs with
  | [], _ => Some cs
  | a :: w', c :: cs' => if Ascii.eqb a c then expect w' cs' else None
  | _ :: _, [] => None
  end.

(** A value, the items of an array after its opening bracket, and the members
    of an object after its opening brace, by recursive descent.  Of two
    nested calls one follows the consumption of a character, so twice the
    length of the text is fuel enough. *)
Fixpoint parse_value (fuel : nat) (cs : list ascii) : option (json * list ascii) :=
  match fuel with
  | O => None
  | S fuel' =>
      match cs with
      | [] => None
      | c :: rest =>
          let n := nat_of_ascii c in
          if Nat.eqb n 123 then                       (* left brace *)
            match skip_space rest with
            | d :: rest' =>
                if Nat.eqb (nat_of_ascii d) 125 then Some (JObject [], rest')
                else
                  match parse_members fuel' (d :: rest') with
                  | Some (ms, out) => Some (JObject ms, out)
                  | None => None
                  end
            | [] => None
            end
          else if Nat.eqb n 91 then                   (* left bracket *)
            match skip_space rest with
            | d :: rest' =>
                if Nat.eqb (nat_of_ascii d) 93 then Some (JArray [], rest')
                else
                  match parse_items fuel' (d :: rest') with
                  | Some (vs, out) => Some (JArray vs, out)
                  | None => None
                  end
            | [] => None
            end
          else if Nat.eqb n 34 then
            match parse_string_body (List.length rest) rest with
            | Some (s, out) => Some (JString s, out)
            | None => None
            end
          else if Nat.eqb n 116 then
            match expect (list_ascii_of_string "true") cs with
            | Some out => Some (JBool true, out)
            | None => None
            end
          else if Nat.eqb n 102 then
            match expect (list_ascii_of_string "false") cs with
            | Some out => Some (JBool false, out)
            | None => None
            end
          else if Nat.eqb n 110 then
            match expect (list_ascii_of_string "null") cs with
            | Some out => Some (JNull, out)
            | None => None
            end
          else
            match parse_number cs with
            | Some (lit, out) => Some (JNumber lit, out)
            | None => None
            end
      end
  end
with parse_items (fuel : nat) (cs : list ascii) : option (list json * list ascii) :=
  match fuel with
  | O => None
  | S fuel' =>
      match parse_value fuel' cs with
      | Some (v, out) =>
          match skip_space out with
          | c :: rest =>
              if Nat.eqb (nat_of_ascii c) 93 then Some ([v], rest)
              else if Nat.eqb (nat_of_ascii c) 44 then
                match parse_items fuel' (skip_space rest) with
                | Some (vs, out') => Some (v :: vs, out')
                | None => None
                end
              else None
          | [] => None
          end
      | None => None
      end
  end
with parse_members (fuel : nat) (cs : list ascii) : option (list (string * json) * list ascii) :=
  match fuel with
  | O => None
  | S fuel' =>
      match cs with
      | q :: rest =>
          if Nat.eqb (nat_of_ascii q) 34 then
            match parse_string_body (List.length rest) rest with
            | Some (k, out) =>
                match skip_space out with
                | colon :: out1 =>
                    if Nat.eqb (nat_of_ascii colon) 58 then
                      match parse_value fuel' (skip_space out1) with
                      | Some (v, out2) =>
                          match skip_space out2 with
                          | c :: out3 =>
                              if Nat.eqb (nat_of_ascii c) 125 then Some ([(k, v)], out3)
                              else if Nat.eqb (nat_of_ascii c) 44 then
                                match parse_members fuel' (skip_space out3) with
                                | Some (ms, out4) => Some ((k, v) :: ms, out4)
                                | None => None
                                end
                              else None
                          | [] => None
                          end
                      | None => None
                      end
                    else None
                | [] => None
                end
            | None => None
            end
          else None
      | [] => None
      end
  end.

(** [JSON.parse(text)]: [None] stands for the SyntaxError it throws. *)
Definition JSON_parse (text : string) : option json :=
  let cs := list_ascii_of_string text in
  match parse_value (S (2 * List.length cs)) (skip_space cs) with
  | Some (v, out) =>
      match skip_space out with
      | [] => Some v
      | _ :: _ => None
      end
  | None => None
  end.

(** *** Reading into what was parsed

    What code meets when it reads into a parsed value: [undefined], or a
    parsed value ([null] is [JNull]). *)
Inductive Value := undefined | parsed (j : json).

(** [v.key] for a key that no built-in prototype defines: a TypeError on
    [null] and on [undefined] (here [None]), the member of that name on an
    object, and [undefined] on anything else. *)
Definition read (key : string) (v : Value) : option Value :=
  match v with
  | undefined | parsed JNull => None
  | parsed (JObject members) =>
      Some (match get_member key members with
            | Some j => parsed j
            | None => undefined
            end)
  | parsed _ => Some undefined
  end.

(** What [v.length] is: the count of an array or of a string, and on
    anything else the outcome of reading a property of that name. *)
Inductive Length := counted (n : nat) | length_read (v : Value).

(** [v.length]: a TypeError on [null] and on [undefined] (here [None]). *)
Definition length_of (v : Value) : option Length :=
  match v with
  | undefined | parsed JNull => None
  | parsed (JArray items) => Some (counted (List.length items))
  | parsed (JString s) => Some (counted (String.length s))
  | parsed (JObject members) =>
      Some (length_read (match get_member "length" members with
                         | Some j => parsed j
                         | None => undefined
                         end))
  | parsed (JBool _) | parsed (JNumber _) => Some (length_read undefined)
  end.

(** [v[0]] on a value that is neither [null] nor [undefined]. *)
Definition first (v : Value) : Value :=
  match v with
  | parsed (JArray (item :: _)) => parsed item
  | parsed (JString (String c _)) => parsed (JString (String c EmptyString))
  | parsed (JObject members) =>
      match get_member "0" members with
      | Some j => parsed j
      | None => undefined
      end
  | _ => undefined
  end.

End Json.

(* ================================================================== *)
(** ** services/geminiService.ts *)

Module Gateway.
Import Js Types Json.

Definition MODEL_ID : string := "gemini-3-pro-preview".

(** The three response schemas, by name. *)
Inductive Schema := stockSenseiSchema | marketInsightSchema | directorSchema.

(** The fields a schema lists as required at its top level. *)
Definition required (s : Schema) : list string :=
  match s with
  | stockSenseiSchema => ["seo"]
  | marketInsightSchema => ["trendingThemes"; "upcomingEvents"; "hotKeywords"; "commercialAdvice"]
  | directorSchema => ["analysis"; "prompt"]
  end.

(** The fixed system instructions, one per recipe, by name (their text is
    natural language addressed to the model). *)
Inductive Instruction :=
| market_analyst (today : string)
| seo_expert
| visual_director
| refinement_director
| motion_director
| motion_refinement_director
| wallpaper_art_director.

(** The text of a text part: a fixed request sentence of a recipe, by name,
    or a string the recipe assembles. *)
Inductive Text :=
| market_question (today : string)
| seo_for_topic (textContent : option string)
| seo_for_video
| seo_for_image
| ask_image_prompt
| literal (s : string).

Inductive Part :=
| text_part (t : Text)
| inlineData (mimeType data : option string).

Record Request := mkRequest {
  model : string;
  contents : list Part;
  systemInstruction : Instruction;
  responseSchema : Schema
}.

(** What the backend answers: [text] is undefined when the answer carries no
    text. *)
Record Response := mkResponse { text : option string }.

(** [ai.models.generateContent], awaited. *)
Definition Backend := Request -> Settled Response.

Definition bind {A B : Type} (x : Settled A) (k : A -> Settled B) : Settled B :=
  match x with
  | Rejected e => Rejected e
  | Fulfilled a => k a
  end.

(** [try { body } catch (e) { handler e }] *)
Definition try_catch {A : Type} (body : Settled A) (handler : Error -> Settled A) : Settled A :=
  match body with
  | Rejected e => handler e
  | Fulfilled a => Fulfilled a
  end.

(** The SyntaxError of [JSON.parse]; its message is the engine's, never
    empty. *)
Definition SyntaxError : Error := new_Error "Unexpected token in JSON".

(** [JSON.parse(response.text || "{}")] *)
Definition parse_text (response : Response) : Settled json :=
  match JSON_parse (or_else (text response) "{}") with
  | Some j => Fulfilled j
  | None => Rejected SyntaxError
  end.

Definition media_part (m : MediaFile) : Part :=
  inlineData (mimeType m) (base64Data m).

(** [if (m) parts.push(inline data of m)] *)
Definition optional_part (m : option MediaFile) : list Part :=
  match m with
  | Some m => [media_part m]
  | None => []
  end.

Definition quotation_mark : string := String (ascii_of_nat 34) EmptyString.

Definition quoted (s : string) : string := quotation_mark ++ s ++ quotation_mark.

(** *** The recipes

    Each recipe is given by the request it builds and by the function that
    sends it and reads the answer. *)

Definition getMarketInsights_request (today : string) : Request :=
  mkRequest "gemini-3-flash-preview"
    [text_part (market_question today)]
    (market_analyst today) marketInsightSchema.

Definition getMarketInsights (ai : Backend) (today : string) : Settled json :=
  try_catch
    (bind (ai (getMarketInsights_request today)) parse_text)
    (fun error => Rejected (new_Error (or_else (message error) "Market Insights fetch failed."))).

Definition generateStockSenseiAnalysis_request (media : MediaFile) : Request :=
  let parts :=
    match type media with
    | Types.text => [text_part (seo_for_topic (textContent media))]
    | Types.video => [text_part seo_for_video; media_part media]
    | Types.image => [text_part seo_for_image; media_part media]
    end in
  mkRequest MODEL_ID parts seo_expert stockSenseiSchema.

Definition generateStockSenseiAnalysis (ai : Backend) (media : MediaFile) : Settled json :=
  try_catch
    (bind (ai (generateStockSenseiAnalysis_request media)) parse_text)
    (fun error => Rejected (new_Error (or_else (message error) "StockSensei SEO generation failed."))).

Definition generateReversePrompt_request (media : MediaFile) : Request :=
  mkRequest "gemini-3-flash-preview"
    [text_part ask_image_prompt; media_part media]
    visual_director directorSchema.

Definition generateReversePrompt (ai : Backend) (media : MediaFile) : Settled json :=
  try_catch
    (bind (ai (generateReversePrompt_request media)) parse_text)
    (fun e => Rejected e).

Definition refinePromptWithFeedback_request (media : MediaFile)
    (previousResult : DirectorResponse) (feedback : string)
    (badMedia additionalMedia : option MediaFile) : Request :=
  let parts :=
    ([text_part (literal ("Refine prompt based on feedback. Previous analysis: "
                          ++ quoted (analysis previousResult)
                          ++ ". User feedback: " ++ quoted feedback ++ "."));
      media_part media]
     ++ optional_part badMedia ++ optional_part additionalMedia)%list in
  mkRequest MODEL_ID parts refinement_director directorSchema.

Definition refinePromptWithFeedback (ai : Backend) (media : MediaFile)
    (previousResult : DirectorResponse) (feedback : string)
    (badMedia additionalMedia : option MediaFile) : Settled json :=
  try_catch
    (bind (ai (refinePromptWithFeedback_request media previousResult feedback
                 badMedia additionalMedia)) parse_text)
    (fun e => Rejected e).

Definition generateVideoPromptFromImage_request (media generatedImage : MediaFile) : Request :=
  mkRequest MODEL_ID
    [text_part (literal "Generate a video motion prompt.");
     media_part media; media_part generatedImage]
    motion_director directorSchema.

Definition generateVideoPromptFromImage (ai : Backend) (media generatedImage : MediaFile)
    : Settled json :=
  try_catch
    (bind (ai (generateVideoPromptFromImage_request media generatedImage)) parse_text)
    (fun e => Rejected e).

Definition refineVideoPromptWithFeedback_request (media generatedImage : MediaFile)
    (previousResult : DirectorResponse) (feedback : string)
    (badVideo : option MediaFile) : Request :=
  let parts :=
    ([text_part (literal ("Refine video prompt. Feedback: " ++ quoted feedback ++ "."));
      media_part media; media_part generatedImage]
     ++ optional_part badVideo)%list in
  mkRequest MODEL_ID parts motion_refinement_director directorSchema.

Definition refineVideoPromptWithFeedback (ai : Backend) (media generatedImage : MediaFile)
    (previousResult : DirectorResponse) (feedback : string)
    (badVideo : option MediaFile) : Settled json :=
  try_catch
    (bind (ai (refineVideoPromptWithFeedback_request media generatedImage previousResult
                 feedback badVideo)) parse_text)
    (fun e => Rejected e).

Definition generateWallpaperFusion_request (styleSource : MediaFile + string)
    (subjectImage : option MediaFile) (customText : option string) : Request :=
  let promptContext := "Create cinematic wallpaper fusion prompt." in
  let (parts, promptContext) :=
    match styleSource with
    | inr style => ([], promptContext ++ " Style: " ++ style ++ ".")
    | inl styleImage => ([media_part styleImage], promptContext)
    end in
  let parts := (parts ++ optional_part subjectImage)%list in
  let promptContext :=
    if truthy customText
    then promptContext ++ " User req: " ++ or_else customText "" ++ "."
    else promptContext in
  let parts := (parts ++ [text_part (literal promptContext)])%list in
  mkRequest MODEL_ID parts wallpaper_art_director directorSchema.

Definition generateWallpaperFusion (ai : Backend) (styleSource : MediaFile + string)
    (subjectImage : option MediaFile) (customText : option string) : Settled json :=
  try_catch
    (bind (ai (generateWallpaperFusion_request styleSource subjectImage customText)) parse_text)
    (fun e => Rejected e).

(** One invocation of an exported recipe, with its arguments. *)
Inductive Call :=
| MarketInsights (today : string)
| StockSeo (media : MediaFile)
| ReversePrompt (media : MediaFile)
| RefinePrompt (media : MediaFile) (previousResult : DirectorResponse) (feedback : string)
               (badMedia additionalMedia : option MediaFile)
| VideoPrompt (media generatedImage : MediaFile)
| RefineVideoPrompt (media generatedImage : MediaFile) (previousResult : DirectorResponse)
                    (feedback : string) (badVideo : option MediaFile)
| WallpaperFusion (styleSource : MediaFile + string) (subjectImage : option MediaFile)
                  (customText : option string).

Definition perform (ai : Backend) (c : Call) : Settled json :=
  match c with
  | MarketInsights today => getMarketInsights ai today
  | StockSeo media => generateStockSenseiAnalysis ai media
  | ReversePrompt media => generateReversePrompt ai media
  | RefinePrompt media previousResult feedback badMedia additionalMedia =>
      refinePromptWithFeedback ai media previousResult feedback badMedia additionalMedia
  | VideoPrompt media generatedImage => generateVideoPromptFromImage ai media generatedImage
  | RefineVideoPrompt media generatedImage previousResult feedback badVideo =>
      refineVideoPromptWithFeedback ai media generatedImage previousResult feedback badVideo
  | WallpaperFusion styleSource subjectImage customText =>
      generateWallpaperFusion ai styleSource subjectImage customText
  end.

(** The request a call sends. *)
Definition request_of (c : Call) : Request :=
  match c with
  | MarketInsights today => getMarketInsights_request today
  | StockSeo media => generateStockSenseiAnalysis_request media
  | ReversePrompt media => generateReversePrompt_request media
  | RefinePrompt media previousResult feedback badMedia additionalMedia =>
      refinePromptWithFeedback_request media previousResult feedback badMedia additionalMedia
  | VideoPrompt media generatedImage => generateVideoPromptFromImage_request media generatedImage
  | RefineVideoPrompt media generatedImage previousResult feedback badVideo =>
      refineVideoPromptWithFeedback_request media generatedImage previousResult feedback badVideo
  | WallpaperFusion styleSource subjectImage customText =>
      generateWallpaperFusion_request styleSource subjectImage customText
  end.

(** What is thrown inside the [try] block of a recipe, if anything: the
    rejection of the backend call, or the SyntaxError of [JSON.parse]. *)
Definition thrown_inside (ai : Backend) (c : Call) : option Error :=
  match ai (request_of c) with
  | Rejected e => Some e
  | Fulfilled response =>
      match JSON_parse (or_else (text response) "{}") with
      | Some _ => None
      | None => Some SyntaxError
      end
  end.

(** The recipes whose declared result is a [DirectorResponse]. *)
Definition is_director_call (c : Call) : bool :=
  match c with
  | MarketInsights _ | StockSeo _ => false
  | _ => true
  end.

(** The fallback message of the recipes that have one. *)
Definition fallback_message (c : Call) : option string :=
  match c with
  | MarketInsights _ => Some "Market Insights fetch failed."
  | StockSeo _ => Some "StockSensei SEO generation failed."
  | _ => None
  end.

(** [fileToGenerativePart(file)]: the type of the file with what follows the
    first comma of its data URL.  [read] is the outcome of
    [reader.readAsDataURL(file)]: the data URL, or the error event. *)
Definition fileToGenerativePart (file : File.t) (read : Settled string)
    : Settled (string * option string) :=
  match read with
  | Fulfilled base64String => Fulfilled (File.type file, index (split "," base64String) 1)
  | Rejected e => Rejected e
  end.

(** *** What a request carries *)

Definition is_inline (p : Part) : bool :=
  match p with inlineData _ _ => true | text_part _ => false end.

(** The media parts of a request, in order. *)
Definition inline_parts (r : Request) : list Part := filter is_inline (contents r).

(** The text parts of a request, in order. *)
Definition text_parts (r : Request) : list Part :=
  filter (fun p => negb (is_inline p)) (contents r).

(** The media a call is given, in the order of its arguments, absent ones
    left out; media of kind text is sent as text by the stock SEO recipe. *)
Definition media_given (c : Call) : list MediaFile :=
  let some (m : option MediaFile) := match m with Some x => [x] | None => [] end in
  match c with
  | MarketInsights _ => []
  | StockSeo media => match type media with Types.text => [] | _ => [media] end
  | ReversePrompt media => [media]
  | RefinePrompt media _ _ badMedia additionalMedia =>
      (media :: some badMedia ++ some additionalMedia)%list
  | VideoPrompt media generatedImage => [media; generatedImage]
  | RefineVideoPrompt media generatedImage _ _ badVideo =>
      (media :: generatedImage :: some badVideo)%list
  | WallpaperFusion styleSource subjectImage _ =>
      (match styleSource with inl styleImage => [styleImage] | inr _ => [] end
       ++ some subjectImage)%list
  end.

End Gateway.

(* ================================================================== *)
(** ** What a handler does to the outside world *)

Module Ui.
Import Types.

(** The messages shown with [alert], named after the place that shows them
    (several are worded in Chinese in the source).

    - FileUpload.handleFileChange: [file_too_large] (File is too large.
      Please upload files smaller than 20MB for this demo.),
      [invalid_file_type] (Please upload a valid image or video file.),
      [file_processing_failed] (Failed to process file.);
    - ResultDisplay: [media_load_failed] (Failed to load media),
      [feedback_required] (the validation message of handleRefineSubmit:
      enter feedback or upload the unsatisfying result),
      [refinement_failed] (Refinement failed. Please try again.),
      [analysis_failed] (Analysis failed.);
    - WallpaperGenerator.handleImportStyle: [import_storage_full] (saving
      failed, the browser storage is full), [import_failed] (the style
      analysis of the import failed, followed by the message of the error);
    - WallpaperGenerator.handleSaveStyle: [style_saved] (the style of that
      name was saved), [save_storage_full] (saving failed, the browser
      storage is full, delete some old styles and try again),
      [thumbnail_failed] (an error occurred while saving the thumbnail). *)
Inductive Alert :=
| file_too_large
| invalid_file_type
| file_processing_failed
| media_load_failed
| feedback_required
| refinement_failed
| analysis_failed
| import_storage_full
| import_failed (message : option string)
| style_saved (name : string)
| save_storage_full
| thumbnail_failed.

Inductive Effect :=
| alert (a : Alert)
| console_error
| gateway (c : Gateway.Call)                       (* a recipe is invoked *)
| localStorage_setItem (value : list SavedStyle.t) (* a write is attempted *)
| onFileSelect (m : MediaFile)
| onGenerate
| onReset
| onUpdateResult (r : DirectorResponse).

Definition is_gateway (e : Effect) : bool :=
  match e with gateway _ => true | _ => false end.

Definition is_onFileSelect (e : Effect) : bool :=
  match e with onFileSelect _ => true | _ => false end.

Definition is_onUpdateResult (e : Effect) : bool :=
  match e with onUpdateResult _ => true | _ => false end.

Definition is_alert (e : Effect) : bool :=
  match e with alert _ => true | _ => false end.

Definition is_setItem (e : Effect) : bool :=
  match e with localStorage_setItem _ => true | _ => false end.

End Ui.

(* ================================================================== *)
(** ** components/FileUpload.tsx *)

Module FileUpload.
Import Js Types Ui.

(** The size ceiling, in bytes. *)
Definition size_limit : N := 20 * 1024 * 1024.

(** [handleFileChange(file)].  [previewUrl] is what [URL.createObjectURL]
    returns and [read] the outcome of reading the file as a data URL. *)
Definition handleFileChange (file : option File.t) (previewUrl : string)
    (read : Settled string) : list Effect :=
  match file with
  | None => []
  | Some file =>
      if (size_limit <? File.size file)%N then [alert file_too_large]
      else
        let isVideo := startsWith (File.type file) "video/" in
        let isImage := startsWith (File.type file) "image/" in
        if (negb isVideo && negb isImage)%bool then [alert invalid_file_type]
        else
          match Gateway.fileToGenerativePart file read with
          | Fulfilled (mimeType, data) =>
              [onFileSelect
                 (mkMediaFile (Some file) (Some previewUrl)
                    (if isVideo then video else image)
                    data (Some mimeType) None)]
          | Rejected _ => [console_error; alert file_processing_failed]
          end
  end.

(** [onDrop]: the first dropped file, unless a generation is loading. *)
Definition onDrop (isLoading : bool) (files : list File.t) (previewUrl : string)
    (read : Settled string) : list Effect :=
  if isLoading then []
  else match files with
       | f :: _ => handleFileChange (Some f) previewUrl read
       | [] => []
       end.

(** The descriptor an ingestion produced, if any. *)
Definition descriptor (effects : list Effect) : option MediaFile :=
  match List.find is_onFileSelect effects with
  | Some (onFileSelect m) => Some m
  | _ => None
  end.

End FileUpload.

(* ================================================================== *)
(** ** App.tsx: the director page *)

Module App.
Import Js Types Ui.

Inductive AppMode := director | stocksensei.

Record State := mkState {
  appMode : AppMode;
  media : option MediaFile;
  generationState : GenerationState
}.

Definition initial : State :=
  mkState director None (mkGenerationState false None None).

Definition setAppMode (mode : AppMode) (s : State) : State :=
  mkState mode (media s) (generationState s).

Definition handleFileSelect (selectedMedia : MediaFile) (s : State) : State :=
  mkState (appMode s) (Some selectedMedia) (mkGenerationState false None None).

Definition handleReset (s : State) : State :=
  mkState (appMode s) None (mkGenerationState false None None).

(** [handleGenerate] up to its [await]. *)
Definition handleGenerate_begin (s : State) : State :=
  let prev := generationState s in
  mkState (appMode s) (media s) (mkGenerationState true (result prev) None).

(** [handleGenerate] from the settlement of the call on. *)
Definition handleGenerate_resume (outcome : Settled DirectorResponse) (s : State) : State :=
  mkState (appMode s) (media s)
    match outcome with
    | Fulfilled response => mkGenerationState false (Some response) None
    | Rejected err =>
        mkGenerationState false None
          (Some (or_else (message err) "Something went wrong during generation."))
    end.

Definition handleGenerate (outcome : Settled DirectorResponse) (s : State)
    : State * list Effect :=
  match media s with
  | None => (s, [])
  | Some m =>
      (handleGenerate_resume outcome (handleGenerate_begin s),
       [gateway (Gateway.ReversePrompt m)])
  end.

Definition handleUpdateResult (newResult : DirectorResponse) (s : State) : State :=
  let prev := generationState s in
  mkState (appMode s) (media s) (mkGenerationState false (Some newResult) (error prev)).

(** The props the page passes to the workflow component: what reaches the
    page when the component calls [onUpdateResult] or [onReset].
    ([onGenerate] starts [handleGenerate], which awaits its call.) *)
Definition callback (s : State) (e : Effect) : State :=
  match e with
  | onUpdateResult newResult => handleUpdateResult newResult s
  | onReset => handleReset s
  | _ => s
  end.

Definition callbacks (effects : list Effect) (s : State) : State :=
  fold_left callback effects s.

End App.

(* ================================================================== *)
(** ** components/ResultDisplay.tsx: the director workflow *)

Module ResultDisplay.
Import Js Types Ui.

Inductive Phase := image_prompt | video_prompt.

Inductive Tab := none | refine | image_to_video.

Record Props := mkProps {
  media : MediaFile;
  additionalMedia : option MediaFile;
  state : GenerationState
}.

(** The state the component holds over renders.  The flags that only drive
    presentation (the copied mark, the microphone indicator) are left out. *)
Record State := mkState {
  phase : Phase;
  activeTab : Tab;
  feedbackText : string;
  isRefining : bool;
  generatedImage : option MediaFile;
  badResultImage : option MediaFile;
  badResultVideo : option MediaFile
}.

Definition initial : State :=
  mkState image_prompt none EmptyString false None None None.

Definition setPhase (v : Phase) (s : State) : State :=
  mkState v (activeTab s) (feedbackText s) (isRefining s)
    (generatedImage s) (badResultImage s) (badResultVideo s).

Definition setActiveTab (v : Tab) (s : State) : State :=
  mkState (phase s) v (feedbackText s) (isRefining s)
    (generatedImage s) (badResultImage s) (badResultVideo s).

Definition setFeedbackText (v : string) (s : State) : State :=
  mkState (phase s) (activeTab s) v (isRefining s)
    (generatedImage s) (badResultImage s) (badResultVideo s).

Definition setIsRefining (v : bool) (s : State) : State :=
  mkState (phase s) (activeTab s) (feedbackText s) v
    (generatedImage s) (badResultImage s) (badResultVideo s).

Definition setGeneratedImage (v : option MediaFile) (s : State) : State :=
  mkState (phase s) (activeTab s) (feedbackText s) (isRefining s)
    v (badResultImage s) (badResultVideo s).

Definition setBadResultImage (v : option MediaFile) (s : State) : State :=
  mkState (phase s) (activeTab s) (feedbackText s) (isRefining s)
    (generatedImage s) v (badResultVideo s).

Definition setBadResultVideo (v : option MediaFile) (s : State) : State :=
  mkState (phase s) (activeTab s) (feedbackText s) (isRefining s)
    (generatedImage s) (badResultImage s) v.

Definition present {A : Type} (v : option A) : bool :=
  match v with Some _ => true | None => false end.

Definition Phase_eqb (a b : Phase) : bool :=
  match a, b with
  | image_prompt, image_prompt | video_prompt, video_prompt => true
  | _, _ => false
  end.

Definition Tab_eqb (a b : Tab) : bool :=
  match a, b with
  | none, none | refine, refine | image_to_video, image_to_video => true
  | _, _ => false
  end.

(** The three places an uploaded reference goes to. *)
Inductive Setter := to_generatedImage | to_badResultImage | to_badResultVideo.

Definition apply_setter (k : Setter) (v : option MediaFile) (s : State) : State :=
  match k with
  | to_generatedImage => setGeneratedImage v s
  | to_badResultImage => setBadResultImage v s
  | to_badResultVideo => setBadResultVideo v s
  end.

(** [handleMediaUpload(file, setter, forcedType)] *)
Definition handleMediaUpload (file : File.t) (previewUrl : string) (read : Settled string)
    (setter : Setter) (forcedType : option MediaType) (s : State) : State * list Effect :=
  match Gateway.fileToGenerativePart file read with
  | Fulfilled (mimeType, data) =>
      let type :=
        match forcedType with
        | Some t => t
        | None => if startsWith (File.type file) "video/" then video else image
        end in
      (apply_setter setter
         (Some (mkMediaFile (Some file) (Some previewUrl) type data (Some mimeType) None)) s,
       [])
  | Rejected _ => (s, [alert media_load_failed])
  end.

(** [recognition.onresult]: the transcript is appended to the feedback. *)
Definition onresult (transcript : string) (s : State) : State :=
  let prev := feedbackText s in
  setFeedbackText
    (prev ++ (match prev with EmptyString => "" | _ => " " end) ++ transcript) s.

(** A call awaited by a handler of the component. *)
Inductive Pending := refine_call | advance_call.

(** [handleRefineSubmit] up to its [await]: the new state, what was done,
    and the call now awaited, if one was dispatched. *)
Definition handleRefineSubmit_begin (p : Props) (s : State)
    : State * list Effect * option Pending :=
  match result (state p) with
  | None => (s, [], None)
  | Some result =>
      let hasBadMedia :=
        match phase s with
        | image_prompt => present (badResultImage s)
        | video_prompt => present (badResultVideo s)
        end in
      if (negb (truthy (Some (trim (feedbackText s)))) && negb hasBadMedia)%bool
      then (s, [alert feedback_required], None)
      else
        match phase s with
        | image_prompt =>
            (setIsRefining true s,
             [gateway (Gateway.RefinePrompt (media p) result (feedbackText s)
                         (badResultImage s) (additionalMedia p))],
             Some refine_call)
        | video_prompt =>
            match generatedImage s with
            | None =>
                (* throw new Error("Missing asset context"), caught below *)
                (setIsRefining false (setIsRefining true s),
                 [console_error; alert refinement_failed], None)
            | Some generatedImage =>
                (setIsRefining true s,
                 [gateway (Gateway.RefineVideoPrompt (media p) generatedImage result
                             (feedbackText s) (badResultVideo s))],
                 Some refine_call)
            end
        end
  end.

(** [handleRefineSubmit] from the settlement of its call on. *)
Definition handleRefineSubmit_resume (outcome : Settled DirectorResponse) (s : State)
    : State * list Effect :=
  match outcome with
  | Fulfilled newResponse =>
      (setIsRefining false
         (setActiveTab none
            (setBadResultVideo None
               (setBadResultImage None
                  (setFeedbackText EmptyString s)))),
       [onUpdateResult newResponse])
  | Rejected _ =>
      (setIsRefining false s, [console_error; alert refinement_failed])
  end.

(** [handleVideoPromptSubmit] up to its [await]. *)
Definition handleVideoPromptSubmit_begin (p : Props) (s : State)
    : State * list Effect * option Pending :=
  match generatedImage s with
  | None => (s, [], None)
  | Some generatedImage =>
      (setIsRefining true s,
       [gateway (Gateway.VideoPrompt (media p) generatedImage)],
       Some advance_call)
  end.

(** [handleVideoPromptSubmit] from the settlement of its call on. *)
Definition handleVideoPromptSubmit_resume (outcome : Settled DirectorResponse) (s : State)
    : State * list Effect :=
  match outcome with
  | Fulfilled newResponse =>
      (setIsRefining false (setActiveTab none (setPhase video_prompt s)),
       [onUpdateResult newResponse])
  | Rejected _ =>
      (setIsRefining false s, [alert analysis_failed])
  end.

(** The part of a handler that runs when its call settles. *)
Definition resume (k : Pending) (outcome : Settled DirectorResponse) (s : State)
    : State * list Effect :=
  match k with
  | refine_call => handleRefineSubmit_resume outcome s
  | advance_call => handleVideoPromptSubmit_resume outcome s
  end.

(** The kind each upload control of the component forces on its media. *)
Definition forcedType (setter : Setter) : MediaType :=
  match setter with
  | to_generatedImage | to_badResultImage => image
  | to_badResultVideo => video
  end.

(** *** What is rendered *)

(** The feedback and workflow actions are shown once a result exists and
    nothing is loading or refining. *)
Definition actions_visible (p : Props) (s : State) : bool :=
  (present (result (state p)) && negb (isLoading (state p)) && negb (isRefining s))%bool.

Definition refine_tab_visible (p : Props) (s : State) : bool :=
  (actions_visible p s && Tab_eqb (activeTab s) refine)%bool.

Definition next_step_tab_visible (p : Props) (s : State) : bool :=
  (actions_visible p s && Tab_eqb (activeTab s) image_to_video)%bool.

(** The [disabled] attribute of the refine submit button. *)
Definition refine_submit_disabled (s : State) : bool :=
  (negb (truthy (Some (trim (feedbackText s))))
   && negb (present (badResultImage s)) && negb (present (badResultVideo s)))%bool.

(** The [disabled] attribute of the advance submit button. *)
Definition advance_submit_disabled (s : State) : bool :=
  negb (present (generatedImage s)).

(** *** The component as a machine *)

(** What can happen to a mounted component: the user operates a rendered
    control ([click_] and [change_] events), an upload or a dictation
    delivers (at any time: they were started earlier), or an awaited call
    settles.  The reset button hands over to the parent, which unmounts the
    component; the next one starts from [initial]. *)
Inductive Event :=
| click_refine_tab
| click_next_step_tab
| change_feedback (value : string)
| dictated (transcript : string)
| uploaded (setter : Setter) (file : File.t) (previewUrl : string) (read : Settled string)
| click_clear_generated
| click_clear_bad_image
| click_clear_bad_video
| click_refine_submit
| click_advance_submit
| settled (i : nat) (outcome : Settled DirectorResponse)
| click_generate
| click_retry
| click_reset.

Record Config := mkConfig {
  local : State;
  inflight : list Pending
}.

Definition initial_config : Config := mkConfig initial [].

Fixpoint remove_nth {A : Type} (i : nat) (l : list A) : list A :=
  match l, i with
  | [], _ => []
  | _ :: l', O => l'
  | x :: l', S i' => x :: remove_nth i' l'
  end.

Definition started (c : Config) (r : State * list Effect * option Pending)
    : Config * list Effect :=
  let '(s', effects, call) := r in
  (mkConfig s' (inflight c ++ match call with Some k => [k] | None => [] end), effects).

(** One event under the props of the current render; [None] when the control
    is not rendered or is disabled. *)
Definition step (p : Props) (e : Event) (c : Config) : option (Config * list Effect) :=
  let s := local c in
  let keep s' := Some (mkConfig s' (inflight c), []) in
  let when (b : bool) (r : option (Config * list Effect)) := if b then r else None in
  match e with
  | click_refine_tab =>
      when (actions_visible p s)
        (keep (setActiveTab (if Tab_eqb (activeTab s) refine then none else refine) s))
  | click_next_step_tab =>
      when (actions_visible p s && Phase_eqb (phase s) image_prompt)%bool
        (keep (setActiveTab
                 (if Tab_eqb (activeTab s) image_to_video then none else image_to_video) s))
  | change_feedback value =>
      when (refine_tab_visible p s) (keep (setFeedbackText value s))
  | dictated transcript => keep (onresult transcript s)
  | uploaded setter file previewUrl read =>
      let (s', effects) :=
        handleMediaUpload file previewUrl read setter (Some (forcedType setter)) s in
      Some (mkConfig s' (inflight c), effects)
  | click_clear_generated =>
      when (next_step_tab_visible p s && present (generatedImage s))%bool
        (keep (setGeneratedImage None s))
  | click_clear_bad_image =>
      when (refine_tab_visible p s && Phase_eqb (phase s) image_prompt
            && present (badResultImage s))%bool
        (keep (setBadResultImage None s))
  | click_clear_bad_video =>
      when (refine_tab_visible p s && Phase_eqb (phase s) video_prompt
            && present (badResultVideo s))%bool
        (keep (setBadResultVideo None s))
  | click_refine_submit =>
      when (refine_tab_visible p s && negb (refine_submit_disabled s))%bool
        (Some (started c (handleRefineSubmit_begin p s)))
  | click_advance_submit =>
      when (next_step_tab_visible p s && negb (advance_submit_disabled s))%bool
        (Some (started c (handleVideoPromptSubmit_begin p s)))
  | settled i outcome =>
      match nth_error (inflight c) i with
      | Some k =>
          let (s', effects) := resume k outcome s in
          Some (mkConfig s' (remove_nth i (inflight c)), effects)
      | None => None
      end
  | click_generate =>
      when (negb (present (result (state p))) && negb (isLoading (state p)))%bool
        (Some (c, [onGenerate]))
  | click_retry =>
      when (truthy (error (state p))) (Some (c, [onGenerate]))
  | click_reset => Some (c, [onReset])
  end.

(** The configurations a mounted component can be in, whatever props its
    parent renders it with. *)
Inductive reachable : Config -> Prop :=
| reachable_initial : reachable initial_config
| reachable_step (c c' : Config) (p : Props) (e : Event) (effects : list Effect) :
    reachable c -> step p e c = Some (c', effects) -> reachable c'.

(** A run of events, each under its props. *)
Fixpoint run (trace : list (Props * Event)) (c : Config) : option Config :=
  match trace with
  | [] => Some c
  | (p, e) :: rest =>
      match step p e c with
      | Some (c', _) => run rest c'
      | None => None
      end
  end.

(** The spec's condition for rejecting a refinement: blank feedback and no
    bad-result media of the kind of the current phase. *)
Definition nothing_to_refine_with (s : State) : bool :=
  (blank (feedbackText s)
   && negb (match phase s with
            | image_prompt => present (badResultImage s)
            | video_prompt => present (badResultVideo s)
            end))%bool.

(** The refine call of a phase. *)
Definition phase_refine_call (p : Props) (s : State) (c : Gateway.Call) : Prop :=
  match phase s with
  | image_prompt =>
      exists r, result (state p) = Some r /\
        c = Gateway.RefinePrompt (media p) r (feedbackText s) (badResultImage s) (additionalMedia p)
  | video_prompt =>
      exists r g, result (state p) = Some r /\ generatedImage s = Some g /\
        c = Gateway.RefineVideoPrompt (media p) g r (feedbackText s) (badResultVideo s)
  end.

(** *** The invariant of the mounted component

    At most one call is awaited, and while one is, the component is
    refining; in the video phase the confirmed image is attached and the
    next-step tab is closed; an awaited advance call has its image. *)
Definition invariant (c : Config) : Prop :=
  (inflight c = [] \/ exists k, inflight c = [k] /\ isRefining (local c) = true) /\
  (phase (local c) = video_prompt ->
     present (generatedImage (local c)) = true /\
     Tab_eqb (activeTab (local c)) image_to_video = false) /\
  (In advance_call (inflight c) -> present (generatedImage (local c)) = true).

(** The bad-result media of the phase the component is not in. *)
Definition other_phase_media (s : State) : option MediaFile :=
  match phase s with
  | image_prompt => badResultVideo s
  | video_prompt => badResultImage s
  end.

End ResultDisplay.

(* ================================================================== *)
(** ** App.tsx: what the director page renders *)

Module DirectorPage.
Import Types.

(** The main area of the page. *)
Inductive View :=
| stock_view                                (* the stock SEO page *)
| upload_view (isLoading : bool)            (* the file upload *)
| workflow_view (p : ResultDisplay.Props).  (* the workflow component *)

Definition render (s : App.State) : View :=
  match App.appMode s with
  | App.stocksensei => stock_view
  | App.director =>
      match App.media s with
      | None => upload_view (isLoading (App.generationState s))
      | Some m => workflow_view (ResultDisplay.mkProps m None (App.generationState s))
      end
  end.

(** The workflow component is mounted while the page renders it. *)
Definition mounted (s : App.State) : bool :=
  match render s with
  | workflow_view _ => true
  | _ => false
  end.

(** *** The page with its component

    The page, the workflow component when one is mounted, the number of
    generation calls the page awaits, and the calls awaited by handlers of
    components that have been unmounted since: such a handler still resumes
    when its call settles, and still calls the page through [onUpdateResult],
    while what it sets on its own component is lost. *)
Record State := mkState {
  page : App.State;
  child : option ResultDisplay.Config;
  generating : nat;
  orphans : list ResultDisplay.Pending
}.

Definition initial : State := mkState App.initial None 0 [].

Definition with_page (a : App.State) (s : State) : State :=
  mkState a (child s) (generating s) (orphans s).

(** The component keeps its state while the page goes on rendering it, is
    dropped when the page stops rendering it, and starts from its initial
    state when the page renders it again. *)
Definition reconcile (s : State) : State :=
  if mounted (page s)
  then mkState (page s)
         (Some (match child s with
                | Some c => c
                | None => ResultDisplay.initial_config
                end))
         (generating s) (orphans s)
  else mkState (page s) None (generating s)
         (orphans s ++ match child s with
                       | Some c => ResultDisplay.inflight c
                       | None => []
                       end).

(** The props of the component as handlers of the page: [onGenerate] is
    [handleGenerate] (up to its [await]), [onReset] is [handleReset],
    [onUpdateResult] is [handleUpdateResult]. *)
Definition callback (s : State) (e : Ui.Effect) : State :=
  match e with
  | Ui.onUpdateResult newResult => with_page (App.handleUpdateResult newResult (page s)) s
  | Ui.onReset => with_page (App.handleReset (page s)) s
  | Ui.onGenerate =>
      match App.media (page s) with
      | Some _ =>
          mkState (App.handleGenerate_begin (page s)) (child s) (S (generating s)) (orphans s)
      | None => s
      end
  | _ => s
  end.

Inductive Event :=
| select_file (m : MediaFile)                       (* the upload delivers a descriptor *)
| set_mode (mode : App.AppMode)                     (* a navigation tab is clicked *)
| in_component (e : ResultDisplay.Event)            (* an event of the mounted component *)
| generation_settled (outcome : Js.Settled DirectorResponse)
| orphan_settled (i : nat) (outcome : Js.Settled DirectorResponse).

Definition step (e : Event) (s : State) : option State :=
  match e with
  | select_file m =>
      match render (page s) with
      | upload_view false => Some (reconcile (with_page (App.handleFileSelect m (page s)) s))
      | _ => None
      end
  | set_mode mode => Some (reconcile (with_page (App.setAppMode mode (page s)) s))
  | in_component ev =>
      match render (page s), child s with
      | workflow_view p, Some c =>
          match ResultDisplay.step p ev c with
          | Some (c', effects) =>
              Some (reconcile
                      (fold_left callback effects
                         (mkState (page s) (Some c') (generating s) (orphans s))))
          | None => None
          end
      | _, _ => None
      end
  | generation_settled outcome =>
      match generating s with
      | S n =>
          Some (reconcile
                  (mkState (App.handleGenerate_resume outcome (page s)) (child s) n (orphans s)))
      | O => None
      end
  | orphan_settled i outcome =>
      match nth_error (orphans s) i with
      | Some k =>
          Some (reconcile
                  (fold_left callback
                     (snd (ResultDisplay.resume k outcome ResultDisplay.initial))
                     (mkState (page s) (child s) (generating s)
                        (ResultDisplay.remove_nth i (orphans s)))))
      | None => None
      end
  end.

Fixpoint run (trace : list Event) (s : State) : option State :=
  match trace with
  | [] => Some s
  | e :: rest =>
      match step e s with
      | Some s' => run rest s'
      | None => None
      end
  end.

Inductive reachable : State -> Prop :=
| reachable_initial : reachable initial
| reachable_step (s s' : State) (e : Event) :
    reachable s -> step e s = Some s' -> reachable s'.

End DirectorPage.

(* ================================================================== *)
(** ** components/WallpaperGenerator.tsx: the style library *)

Module WallpaperGenerator.
Import Js Types Ui.

Record State := mkState {
  styleImage : option MediaFile;
  subjectImage : option MediaFile;
  customText : string;
  savedStyles : list SavedStyle.t;
  activeSavedStyle : option SavedStyle.t;
  generationState : GenerationState
}.

(** The component together with the browser storage it writes to: [stored]
    is the collection serialized under the key of the style library, if any.
    The stored text is modelled by the collection it serializes (so a stored
    text that does not parse has no counterpart here), and whether a write
    is taken is decided by the environment. *)
Record World := mkWorld {
  component : State;
  stored : option (list SavedStyle.t)
}.

Definition initial : State :=
  mkState None None EmptyString [] None (mkGenerationState false None None).

Definition setGenerationState (g : GenerationState) (s : State) : State :=
  mkState (styleImage s) (subjectImage s) (customText s) (savedStyles s)
    (activeSavedStyle s) g.

Definition setSavedStyles (l : list SavedStyle.t) (s : State) : State :=
  mkState (styleImage s) (subjectImage s) (customText s) l
    (activeSavedStyle s) (generationState s).

Definition setActiveSavedStyle (a : option SavedStyle.t) (s : State) : State :=
  mkState (styleImage s) (subjectImage s) (customText s) (savedStyles s)
    a (generationState s).

Definition setStyleImage (m : option MediaFile) (s : State) : State :=
  mkState m (subjectImage s) (customText s) (savedStyles s)
    (activeSavedStyle s) (generationState s).

(** The effect run on mount: the stored collection, when there is one,
    becomes the collection in memory. *)
Definition mount (stored : option (list SavedStyle.t)) : World :=
  mkWorld (match stored with
           | Some saved => setSavedStyles saved initial
           | None => initial
           end) stored.

Definition handleGenerate (outcome : Settled DirectorResponse) (s : State)
    : State * list Effect :=
  match styleImage s, activeSavedStyle s with
  | None, None => (s, [])
  | _, _ =>
      let styleSource : MediaFile + string :=
        match activeSavedStyle s, styleImage s with
        | Some style, _ => inr (SavedStyle.analysis style)
        | None, Some m => inl m
        | None, None => inr EmptyString
        end in
      (setGenerationState
         match outcome with
         | Fulfilled response => mkGenerationState false (Some response) None
         | Rejected error =>
             mkGenerationState false None
               (Some (or_else (message error) "Wallpaper generation failed."))
         end s,
       [gateway (Gateway.WallpaperFusion styleSource (subjectImage s) (Some (customText s)))])
  end.

(** [localStorage.setItem] of the whole collection, then what follows in the
    same [try] block; on a storage failure, the [catch] block instead. *)
Definition persist (setItem_ok : bool) (updatedStyles : list SavedStyle.t)
    (after_write on_failure : list Effect) (w : World) : World * list Effect :=
  if setItem_ok
  then (mkWorld (setSavedStyles updatedStyles (component w)) (Some updatedStyles),
        localStorage_setItem updatedStyles :: after_write)
  else (w, localStorage_setItem updatedStyles :: on_failure).

(** What [handleImportStyle] awaits and reads from its environment. *)
Record ImportEnv := mkImportEnv {
  import_read : Settled string;               (* reading the file *)
  import_previewUrl : string;                 (* URL.createObjectURL *)
  import_analysis : Settled DirectorResponse; (* the reverse prompt call *)
  import_thumbnail : Settled string;          (* createPersistentThumbnail *)
  import_now : N;                             (* Date.now() *)
  import_setItem_ok : bool                    (* whether the storage takes the write *)
}.

(** The name an imported style gets. *)
Definition import_autoName (analysisResult : DirectorResponse) (file : File.t) : string :=
  or_else (or_opt (title analysisResult) (index (split "." (File.name file)) 0)) "New Style".

Definition finish_loading (w : World) : World :=
  let prev := generationState (component w) in
  mkWorld (setGenerationState (mkGenerationState false (result prev) (error prev)) (component w))
          (stored w).

Definition handleImportStyle (file : option File.t) (env : ImportEnv) (w : World)
    : World * list Effect :=
  match file with
  | None => (w, [])
  | Some file =>
      let savedStyles := savedStyles (component w) in
      let prev := generationState (component w) in
      let w1 := mkWorld (setGenerationState (mkGenerationState true (result prev) None)
                           (component w)) (stored w) in
      let failed (e : Error) (done : list Effect) :=
        (finish_loading w1, done ++ [console_error; alert (import_failed (message e))])%list in
      match Gateway.fileToGenerativePart file (import_read env) with
      | Rejected e => failed e []
      | Fulfilled (mimeType, data) =>
          let mediaFile :=
            mkMediaFile (Some file) (Some (import_previewUrl env)) image data
                        (Some mimeType) None in
          let call := [gateway (Gateway.ReversePrompt mediaFile)] in
          match import_analysis env with
          | Rejected e => failed e call
          | Fulfilled analysisResult =>
              match import_thumbnail env with
              | Rejected e => failed e call
              | Fulfilled thumbnailUrl =>
                  let newStyle :=
                    SavedStyle.mk (Number_toString (import_now env))
                      (import_autoName analysisResult file)
                      (analysis analysisResult) thumbnailUrl in
                  let (w2, effects) :=
                    persist (import_setItem_ok env) (newStyle :: savedStyles)
                      [] [alert import_storage_full] w1 in
                  (finish_loading w2, (call ++ effects)%list)
              end
          end
      end
  end.

(** What [handleSaveStyle] awaits and reads from its environment. *)
Record SaveEnv := mkSaveEnv {
  save_timeLabel : string;            (* new Date().toLocaleTimeString() *)
  save_thumbnail : Settled string;    (* createPersistentThumbnail *)
  save_now : N;                       (* Date.now() *)
  save_setItem_ok : bool              (* whether the storage takes the write *)
}.

(** The name a saved result gets. *)
Definition save_name (r : DirectorResponse) (timeLabel : string) : string :=
  or_else (title r) ("Style " ++ timeLabel).

Definition handleSaveStyle (env : SaveEnv) (w : World) : World * list Effect :=
  let s := component w in
  match result (generationState s), styleImage s, activeSavedStyle s with
  | None, _, _ => (w, [])
  | Some _, None, None => (w, [])
  | Some r, styleImage, activeSavedStyle =>
      let name := save_name r (save_timeLabel env) in
      let thumbnail :=
        match styleImage, activeSavedStyle with
        | Some _, _ => save_thumbnail env
        | None, Some style => Fulfilled (SavedStyle.thumbnailUrl style)
        | None, None => Fulfilled EmptyString
        end in
      match thumbnail with
      | Rejected _ => (w, [console_error; alert thumbnail_failed])
      | Fulfilled thumbnailUrl =>
          let newStyle :=
            SavedStyle.mk (Number_toString (save_now env)) name (analysis r) thumbnailUrl in
          persist (save_setItem_ok env) (newStyle :: savedStyles s)
            [alert (style_saved name)] [alert save_storage_full] w
      end
  end.

Definition handleSelectStyle (style : SavedStyle.t) (s : State) : State :=
  setStyleImage None (setActiveSavedStyle (Some style) s).

Definition handleClearStyle (s : State) : State :=
  setStyleImage None (setActiveSavedStyle None s).

Definition handleUpdateResult (newResult : DirectorResponse) (s : State) : State :=
  let prev := generationState s in
  setGenerationState (mkGenerationState (isLoading prev) (Some newResult) (error prev)) s.

Definition handleReset (s : State) : State :=
  setGenerationState (mkGenerationState false None None) s.

Definition handleFullReset (s : State) : State :=
  mkState None None EmptyString (savedStyles s) None (mkGenerationState false None None).

(** The save has a source: an uploaded style image or a selected style. *)
Definition present_source (s : State) : bool :=
  match styleImage s, activeSavedStyle s with
  | None, None => false
  | _, _ => true
  end.

(** The naming rule as the specification words it for both creation paths:
    the title when it is not empty, else the stem of the source file name,
    else a label made from the time. *)
Definition specified_name (title : option string) (stem : option string)
    (timeLabel : string) : string :=
  or_else (or_opt title stem) ("Style " ++ timeLabel).

(** The new entry of an import and of a save. *)
Definition imported_style (file : File.t) (env : ImportEnv) (a : DirectorResponse)
    (thumbnailUrl : string) : SavedStyle.t :=
  SavedStyle.mk (Number_toString (import_now env)) (import_autoName a file)
    (analysis a) thumbnailUrl.

Definition saved_style (env : SaveEnv) (r : DirectorResponse) (thumbnailUrl : string)
    : SavedStyle.t :=
  SavedStyle.mk (Number_toString (save_now env)) (save_name r (save_timeLabel env))
    (analysis r) thumbnailUrl.

(** The thumbnail a save uses: made from the uploaded style image, else that
    of the selected saved style. *)
Definition save_thumbnail_of (env : SaveEnv) (s : State) : Settled string :=
  match styleImage s, activeSavedStyle s with
  | Some _, _ => save_thumbnail env
  | None, Some style => Fulfilled (SavedStyle.thumbnailUrl style)
  | None, None => Fulfilled EmptyString
  end.

(** [handleDeleteStyle(id, e)].  [confirmed] is the answer to the
    confirmation dialog and [setItem_ok] whether the storage takes the
    write.  The write is not guarded here: when it throws, the handler ends
    there, after the collection in memory was set and before the selection
    is looked at. *)
Definition handleDeleteStyle (id : string) (confirmed setItem_ok : bool) (w : World)
    : World * list Effect :=
  if confirmed then
    let s := component w in
    let updated := filter (fun x => negb (String.eqb (SavedStyle.id x) id)) (savedStyles s) in
    let s1 := setSavedStyles updated s in
    if setItem_ok then
      (mkWorld
         match activeSavedStyle s with
         | Some active =>
             if String.eqb (SavedStyle.id active) id then setActiveSavedStyle None s1 else s1
         | None => s1
         end
         (Some updated),
       [localStorage_setItem updated])
    else (mkWorld s1 (stored w), [localStorage_setItem updated])
  else (w, []).

(** The stored collection is the one in memory (nothing stored counting as
    the empty collection). *)
Definition in_sync (w : World) : Prop :=
  match stored w with
  | Some saved => saved = savedStyles (component w)
  | None => savedStyles (component w) = []
  end.

End WallpaperGenerator.

(* ================================================================== *)
(** ** components/StockSensei.tsx: the market insight fetcher *)

Module StockSensei.
Import Js Types Json Ui.

Inductive InputType := file_input | text_input.

(** The snapshot and the selected event are declared as [MarketInsight] and
    [MarketEvent] or [null]; what they hold is what the handlers put there,
    which is what [JSON.parse] yielded and what was read from it. *)
Record State := mkState {
  media : option MediaFile;
  textInput : string;
  inputType : InputType;
  isLoading : bool;
  result : option StockSenseiResponse;
  error : option string;
  insights : json;
  isInsightLoading : bool;
  selectedEvent : Value
}.

Definition initial : State :=
  mkState None EmptyString file_input false None None JNull false (parsed JNull).

Definition setInsights (v : json) (s : State) : State :=
  mkState (media s) (textInput s) (inputType s) (isLoading s) (result s) (error s)
    v (isInsightLoading s) (selectedEvent s).

Definition setIsInsightLoading (v : bool) (s : State) : State :=
  mkState (media s) (textInput s) (inputType s) (isLoading s) (result s) (error s)
    (insights s) v (selectedEvent s).

Definition setSelectedEvent (v : Value) (s : State) : State :=
  mkState (media s) (textInput s) (inputType s) (isLoading s) (result s) (error s)
    (insights s) (isInsightLoading s) v.

Section Refresh.

(** [v > 0] for a parsed value [v], [None] when converting [v] to a number
    throws.  It is met only when an object with a member [length] stands
    where the list of events is expected; the length of an array or of a
    string is compared as the number it is. *)
Variable greater_than_zero : json -> option bool.

(** [data.upcomingEvents.length > 0]; [None] when the evaluation throws. *)
Definition lists_an_event (data : json) : option bool :=
  match read "upcomingEvents" (parsed data) with
  | None => None
  | Some events =>
      match length_of events with
      | None => None
      | Some (counted n) => Some (Nat.ltb 0 n)
      | Some (length_read undefined) => Some false
      | Some (length_read (parsed j)) => greater_than_zero j
      end
  end.

(** [data.upcomingEvents[0]], read after the test above succeeded. *)
Definition first_event (data : json) : Value :=
  match read "upcomingEvents" (parsed data) with
  | Some events => first events
  | None => undefined
  end.

(** [fetchInsights]; [today] is the date the recipe reads from the clock and
    [outcome] what [getMarketInsights] settles with: whatever [JSON.parse]
    yielded, unchecked.  The snapshot is set before the list of events is
    looked at, inside the same [try]. *)
Definition fetchInsights (today : string) (outcome : Settled json) (s : State)
    : State * list Effect :=
  let s1 := setIsInsightLoading true s in
  let (s2, effects) :=
    match outcome with
    | Fulfilled data =>
        let s' := setInsights data s1 in
        match lists_an_event data with
        | Some true => (setSelectedEvent (first_event data) s', [])
        | Some false => (s', [])
        | None => (s', [console_error])
        end
    | Rejected _ => (s1, [console_error])
    end in
  (setIsInsightLoading false s2, gateway (Gateway.MarketInsights today) :: effects).

End Refresh.

Definition setMedia (v : option MediaFile) (s : State) : State :=
  mkState v (textInput s) (inputType s) (isLoading s) (result s) (error s)
    (insights s) (isInsightLoading s) (selectedEvent s).

Definition setTextInput (v : string) (s : State) : State :=
  mkState (media s) v (inputType s) (isLoading s) (result s) (error s)
    (insights s) (isInsightLoading s) (selectedEvent s).

Definition setIsLoading (v : bool) (s : State) : State :=
  mkState (media s) (textInput s) (inputType s) v (result s) (error s)
    (insights s) (isInsightLoading s) (selectedEvent s).

Definition setResult (v : option StockSenseiResponse) (s : State) : State :=
  mkState (media s) (textInput s) (inputType s) (isLoading s) v (error s)
    (insights s) (isInsightLoading s) (selectedEvent s).

Definition setError (v : option string) (s : State) : State :=
  mkState (media s) (textInput s) (inputType s) (isLoading s) (result s) v
    (insights s) (isInsightLoading s) (selectedEvent s).

Definition handleFileSelect (m : MediaFile) (s : State) : State :=
  setError None (setResult None (setMedia (Some m) s)).

(** The button that starts another item. *)
Definition startOver (s : State) : State :=
  setTextInput EmptyString (setMedia None (setResult None s)).

(** The message [handleAnalyze] falls back to, in the bytes of its UTF-8
    encoding (its last four characters are Chinese). *)
Definition analyze_fallback : string := "SEO 生成失敗".

(** What [handleAnalyze] sends, or nothing when it returns at once. *)
Definition analyze_payload (s : State) : option MediaFile :=
  match inputType s with
  | file_input => media s
  | text_input =>
      if truthy (Some (trim (textInput s)))
      then Some (mkMediaFile None None text None None (Some (textInput s)))
      else None
  end.

Definition handleAnalyze (outcome : Settled StockSenseiResponse) (s : State)
    : State * list Effect :=
  match analyze_payload s with
  | None => (s, [])
  | Some payload =>
      let s1 := setError None (setIsLoading true s) in
      (setIsLoading false
         match outcome with
         | Fulfilled data => setResult (Some data) s1
         | Rejected err => setError (Some (or_else (message err) analyze_fallback)) s1
         end,
       [gateway (Gateway.StockSeo payload)])
  end.

(** The [disabled] attribute of the analyze button. *)
Definition analyze_disabled (s : State) : bool :=
  (isLoading s
   || match inputType s with
      | file_input => negb (match media s with Some _ => true | None => false end)
      | text_input => negb (truthy (Some (trim (textInput s))))
      end)%bool.

End StockSensei.

(* ================================================================== *)
(** ** Sample inputs and runs *)

Module Samples.
Import Js Types Ui.

(** *** Media and responses *)

Definition photo : File.t := File.mk "photo.jpg" 2097152 "image/jpeg".

Definition still : File.t := File.mk "still.png" 1024 "image/png".

Definition paper : File.t := File.mk "paper.png" 4096 "image/png".

Definition reference : MediaFile :=
  mkMediaFile (Some photo) (Some "blob:1") image (Some "AAAA") (Some "image/jpeg") None.

Definition confirmed_image : MediaFile :=
  mkMediaFile (Some still) (Some "blob:2") image (Some "BBBB") (Some "image/png") None.

Definition sample_result : DirectorResponse :=
  mkDirectorResponse None "warm backlight, shallow depth of field" "cinematic portrait".

Definition motion_result : DirectorResponse :=
  mkDirectorResponse None "slow push in" "camera dollies forward".

Definition untitled : DirectorResponse :=
  mkDirectorResponse None "neon dusk over wet asphalt" "neon city at dusk".

(** *** Backends *)

(** A backend whose answer carries no text. *)
Definition silent_backend : Gateway.Backend :=
  fun _ => Fulfilled (Gateway.mkResponse None).

(** A backend that fails with an error constructed without a message. *)
Definition mute_failure : Gateway.Backend :=
  fun _ => Rejected (mkError (Some EmptyString)).

(** A backend that answers with the given text. *)
Definition answering (text : string) : Gateway.Backend :=
  fun _ => Fulfilled (Gateway.mkResponse (Some text)).

(** *** The director page and its workflow component *)

(** The page showing a result for the reference media. *)
Definition shown : App.State :=
  App.mkState App.director (Some reference)
    (mkGenerationState false (Some sample_result) None).

(** The props of a render that shows a result, nothing loading. *)
Definition showing (r : DirectorResponse) : ResultDisplay.Props :=
  ResultDisplay.mkProps reference None (mkGenerationState false (Some r) None).

(** The user opens the next-step tab, uploads a confirmed image and submits
    the advance action. *)
Definition advance_trace : list (ResultDisplay.Props * ResultDisplay.Event) :=
  [ (showing sample_result, ResultDisplay.click_next_step_tab);
    (showing sample_result,
     ResultDisplay.uploaded ResultDisplay.to_generatedImage still "blob:2"
       (Fulfilled "data:image/png;base64,BBBB"));
    (showing sample_result, ResultDisplay.click_advance_submit) ].

(** Where that run ends: the advance call is awaited. *)
Definition advancing : ResultDisplay.Config :=
  ResultDisplay.mkConfig
    (ResultDisplay.mkState ResultDisplay.image_prompt ResultDisplay.image_to_video
       EmptyString true (Some confirmed_image) None None)
    [ResultDisplay.advance_call].

(** After the advance call settled with a response. *)
Definition in_video_phase : ResultDisplay.Config :=
  ResultDisplay.mkConfig
    (ResultDisplay.mkState ResultDisplay.video_prompt ResultDisplay.none
       EmptyString false (Some confirmed_image) None None)
    [].

(** Then the user opens the refine tab and types feedback. *)
Definition feedback_trace : list (ResultDisplay.Props * ResultDisplay.Event) :=
  [ (showing motion_result, ResultDisplay.click_refine_tab);
    (showing motion_result, ResultDisplay.change_feedback "slower") ].

Definition with_feedback : ResultDisplay.Config :=
  ResultDisplay.mkConfig
    (ResultDisplay.mkState ResultDisplay.video_prompt ResultDisplay.refine
       "slower" false (Some confirmed_image) None None)
    [].

(** The user attaches a bad image in the image phase, does not refine,
    advances to the video phase and opens the refine tab there. *)
Definition leftover_trace : list (ResultDisplay.Props * ResultDisplay.Event) :=
  [ (showing sample_result, ResultDisplay.click_refine_tab);
    (showing sample_result,
     ResultDisplay.uploaded ResultDisplay.to_badResultImage paper "blob:3"
       (Fulfilled "data:image/png;base64,EEEE"));
    (showing sample_result, ResultDisplay.click_next_step_tab);
    (showing sample_result,
     ResultDisplay.uploaded ResultDisplay.to_generatedImage still "blob:2"
       (Fulfilled "data:image/png;base64,BBBB"));
    (showing sample_result, ResultDisplay.click_advance_submit);
    (showing sample_result, ResultDisplay.settled 0 (Fulfilled motion_result));
    (showing motion_result, ResultDisplay.click_refine_tab) ].

Definition leftover : ResultDisplay.Config :=
  ResultDisplay.mkConfig
    (ResultDisplay.mkState ResultDisplay.video_prompt ResultDisplay.refine
       EmptyString false (Some confirmed_image)
       (Some (mkMediaFile (Some paper) (Some "blob:3") image (Some "EEEE")
                (Some "image/png") None))
       None)
    [].

(** A refinement is awaited when the user resets, uploads again and
    generates; the refinement then settles, and the generation fails. *)
Definition race_trace : list DirectorPage.Event :=
  [ DirectorPage.select_file reference;
    DirectorPage.in_component ResultDisplay.click_generate;
    DirectorPage.generation_settled (Fulfilled sample_result);
    DirectorPage.in_component ResultDisplay.click_refine_tab;
    DirectorPage.in_component (ResultDisplay.change_feedback "make it brighter");
    DirectorPage.in_component ResultDisplay.click_refine_submit;
    DirectorPage.in_component ResultDisplay.click_reset;
    DirectorPage.select_file reference;
    DirectorPage.in_component ResultDisplay.click_generate;
    DirectorPage.orphan_settled 0 (Fulfilled motion_result) ].

(** Where that run ends: the page shows the response of the refinement and
    awaits a generation. *)
Definition racing : DirectorPage.State :=
  DirectorPage.mkState
    (App.mkState App.director (Some reference)
       (mkGenerationState false (Some motion_result) None))
    (Some ResultDisplay.initial_config) 1 [].

(** *** Leaving the director page in the video phase *)

(** The user uploads, generates, confirms an image and advances. *)
Definition awaiting_trace : list DirectorPage.Event :=
  [ DirectorPage.select_file reference;
    DirectorPage.in_component ResultDisplay.click_generate;
    DirectorPage.generation_settled (Fulfilled sample_result);
    DirectorPage.in_component ResultDisplay.click_next_step_tab;
    DirectorPage.in_component
      (ResultDisplay.uploaded ResultDisplay.to_generatedImage still "blob:2"
         (Fulfilled "data:image/png;base64,BBBB"));
    DirectorPage.in_component ResultDisplay.click_advance_submit ].

(** Where that run ends: the page awaits the advance call of its component. *)
Definition awaiting_page : DirectorPage.State :=
  DirectorPage.mkState shown (Some advancing) 0 [].

(** The page once the advance call answered: the workflow is in the video
    phase. *)
Definition video_page : DirectorPage.State :=
  DirectorPage.mkState
    (App.mkState App.director (Some reference)
       (mkGenerationState false (Some motion_result) None))
    (Some in_video_phase) 0 [].

(** The same page after a visit to the stock page. *)
Definition back_on_page : DirectorPage.State :=
  DirectorPage.mkState
    (App.mkState App.director (Some reference)
       (mkGenerationState false (Some motion_result) None))
    (Some ResultDisplay.initial_config) 0 [].

(** *** The stock page *)

Definition new_year : Json.json :=
  Json.JObject [("name", Json.JString "New Year");
                ("keywords", Json.JArray [Json.JString "fireworks"])].

Definition valentine : Json.json :=
  Json.JObject [("name", Json.JString "Valentine");
                ("keywords", Json.JArray [Json.JString "roses"])].

(** A snapshot that lists two events. *)
Definition snapshot : Json.json :=
  Json.JObject [("trendingThemes", Json.JArray []);
                ("upcomingEvents", Json.JArray [new_year; valentine]);
                ("hotKeywords", Json.JArray [Json.JString "winter"]);
                ("commercialAdvice", Json.JString "shoot warm interiors")].

(** The stock page showing that snapshot, its second event selected. *)
Definition browsing : StockSensei.State :=
  StockSensei.mkState None EmptyString StockSensei.file_input false None None
    snapshot false (Json.parsed valentine).

(** A comparison for runs that never consult it. *)
Definition unconsulted : Json.json -> option bool := fun _ => None.

(** *** The wallpaper page *)

Definition library : list SavedStyle.t :=
  [ SavedStyle.mk "1699999999999" "Ink Wash" "ink wash on rice paper"
      "data:image/jpeg;base64,DDDD" ].

(** The one style of that library. *)
Definition ink_wash : SavedStyle.t :=
  SavedStyle.mk "1699999999999" "Ink Wash" "ink wash on rice paper"
    "data:image/jpeg;base64,DDDD".

(** A page showing an untitled result made from the uploaded photo, with an
    empty library. *)
Definition untitled_shown : WallpaperGenerator.World :=
  WallpaperGenerator.mkWorld
    (WallpaperGenerator.mkState (Some reference) None EmptyString [] None
       (mkGenerationState false (Some untitled) None))
    None.

(** The same page with one style in the library, stored. *)
Definition full_library : WallpaperGenerator.World :=
  WallpaperGenerator.mkWorld
    (WallpaperGenerator.mkState (Some reference) None EmptyString library None
       (mkGenerationState false (Some untitled) None))
    (Some library).

Definition morning : WallpaperGenerator.SaveEnv :=
  WallpaperGenerator.mkSaveEnv "10:00:00" (Fulfilled "data:image/jpeg;base64,CCCC")
    1700000000000 true.

Definition no_room_save : WallpaperGenerator.SaveEnv :=
  WallpaperGenerator.mkSaveEnv "10:00:00" (Fulfilled "data:image/jpeg;base64,CCCC")
    1700000000000 false.

Definition import_env (title : option string) (setItem_ok : bool)
    : WallpaperGenerator.ImportEnv :=
  WallpaperGenerator.mkImportEnv (Fulfilled "data:image/png;base64,EEEE") "blob:3"
    (Fulfilled (mkDirectorResponse title "layered paper" "paper cut style"))
    (Fulfilled "data:image/jpeg;base64,FFFF") 1700000000001 setItem_ok.

End Samples.

(* ================================================================== *)
(** * Properties *)

(** ** Strings *)

Module JsFacts.
Import Js.

Lemma blank_trimStart (s : string) : blank (trimStart s) = blank s.
Proof.
  induction s as [|c s IH]; simpl; [reflexivity|].
  destruct (is_white_space c) eqn:W; simpl; [exact IH | now rewrite W].
Qed.

Lemma trimEnd_empty_iff (s : string) : trimEnd s = EmptyString <-> blank s = true.
Proof.
  induction s as [|c s IH]; simpl; [tauto|].
  destruct (trimEnd s) eqn:T, (is_white_space c); simpl.
  - split; [intros _; now apply IH | reflexivity].
  - split; discriminate.
  - split; [discriminate | intros B; apply IH in B; discriminate].
  - split; discriminate.
Qed.

(** The trimmed text is empty exactly for text made of white space only. *)
Lemma trim_empty_iff (s : string) : trim s = EmptyString <-> blank s = true.
Proof.
  unfold trim. rewrite trimEnd_empty_iff, blank_trimStart. tauto.
Qed.

(** [!s.trim()] computes [blank s]. *)
Lemma not_truthy_trim (s : string) : negb (truthy (Some (trim s))) = blank s.
Proof.
  destruct (blank s) eqn:B.
  - apply trim_empty_iff in B. now rewrite B.
  - destruct (trim s) eqn:T; [|reflexivity].
    apply trim_empty_iff in T. congruence.
Qed.

(** [a || b] is never empty when [b] is not. *)
Lemma or_else_truthy (a : option string) (b : string) :
  truthy (Some b) = true -> truthy (Some (or_else a b)) = true.
Proof. destruct a as [[|c s]|]; simpl; auto. Qed.

End JsFacts.

(* ------------------------------------------------------------------ *)
(** ** Media ingestion *)

Module FileUploadProps.
Import Js Types Ui FileUpload Samples.

(** C6, as stated, fails: a two-megabyte JPEG whose read ends in an error
    passes both validations and still produces no descriptor; what is
    reported is the processing failure, not a validation error. *)
Lemma valid_media_without_descriptor :
  (File.size photo <=? size_limit)%N = true /\
  startsWith (File.type photo) "image/" = true /\
  handleFileChange (Some photo) "blob:1" (Rejected (mkError None))
    = [console_error; alert file_processing_failed] /\
  descriptor (handleFileChange (Some photo) "blob:1" (Rejected (mkError None))) = None.
Proof. repeat split. Qed.

(** C6, amended: a file of at most 20 MiB whose type starts with image/ or
    video/ yields, when its payload is encoded, exactly one descriptor, of
    kind video for video/ and image otherwise, carrying the type of the file
    and the payload of the data URL; when the encoding fails, a processing
    failure is reported and there is no descriptor.  Any other file is
    rejected with one of the two validation messages and there is no
    descriptor.  In no case is a gateway call made. *)
Theorem handleFileChange_contract (file : File.t) (previewUrl : string) (read : Settled string) :
  let effects := handleFileChange (Some file) previewUrl read in
  let isVideo := startsWith (File.type file) "video/" in
  let isImage := startsWith (File.type file) "image/" in
  forallb (fun e => negb (is_gateway e)) effects = true /\
  match ((File.size file <=? size_limit)%N && (isImage || isVideo))%bool, read with
  | true, Fulfilled dataUrl =>
      let m := mkMediaFile (Some file) (Some previewUrl) (if isVideo then video else image)
                 (index (split "," dataUrl) 1) (Some (File.type file)) None in
      effects = [onFileSelect m] /\ descriptor effects = Some m
  | true, Rejected _ =>
      effects = [console_error; alert file_processing_failed] /\ descriptor effects = None
  | false, _ =>
      (effects = [alert file_too_large] \/ effects = [alert invalid_file_type]) /\
      descriptor effects = None
  end.
Proof.
  cbv zeta. unfold handleFileChange.
  rewrite N.leb_antisym.
  destruct (size_limit <? File.size file)%N; simpl.
  - destruct read; auto.
  - destruct (startsWith (File.type file) "video/") eqn:V,
             (startsWith (File.type file) "image/") eqn:I, read; simpl; auto.
Qed.

(** Scenario E of the specification: a file of 25 MB is refused with the
    size message; nothing else happens. *)
Example oversized_file_is_refused :
  handleFileChange (Some (File.mk "clip.mp4" 26214400 "video/mp4")) "blob:9"
    (Fulfilled "data:video/mp4;base64,AAAA")
  = [alert file_too_large].
Proof. reflexivity. Qed.

Example text_file_is_refused :
  handleFileChange (Some (File.mk "notes.txt" 12 "text/plain")) "blob:9"
    (Fulfilled "data:text/plain;base64,AAAA")
  = [alert invalid_file_type].
Proof. reflexivity. Qed.

(** A file of exactly 20 MiB is accepted. *)
Example file_at_the_limit :
  descriptor (handleFileChange (Some (File.mk "clip.mp4" 20971520 "video/mp4")) "blob:9"
                (Fulfilled "data:video/mp4;base64,AAAA"))
  = Some (mkMediaFile (Some (File.mk "clip.mp4" 20971520 "video/mp4")) (Some "blob:9")
            video (Some "AAAA") (Some "video/mp4") None).
Proof. reflexivity. Qed.

End FileUploadProps.

(* ------------------------------------------------------------------ *)
(** ** The gateway *)

Module GatewayProps.
Import Js Types Json Gateway Samples.

(** *** [JSON.parse] on small texts *)

Example parse_empty_object : JSON_parse "{}" = Some (JObject []).
Proof. reflexivity. Qed.

Example parse_director_answer :
  JSON_parse ("{" ++ quoted "analysis" ++ ": " ++ quoted "low sun" ++ ", "
              ++ quoted "prompt" ++ ": " ++ quoted "golden hour" ++ "}")
  = Some (JObject [("analysis", JString "low sun"); ("prompt", JString "golden hour")]).
Proof. reflexivity. Qed.

Example parse_nested :
  JSON_parse ("{" ++ quoted "upcomingEvents" ++ ": [ {" ++ quoted "name" ++ ": "
              ++ quoted "New Year" ++ ", " ++ quoted "keywords" ++ ": [] } ], "
              ++ quoted "n" ++ ": -1.5e3, " ++ quoted "ok" ++ ": true }")
  = Some (JObject [("upcomingEvents",
                    JArray [JObject [("name", JString "New Year"); ("keywords", JArray [])]]);
                   ("n", JNumber "-1.5e3"); ("ok", JBool true)]).
Proof. reflexivity. Qed.

Example parse_rejects :
  JSON_parse "" = None /\ JSON_parse "Service unavailable" = None /\
  JSON_parse "{" = None /\ JSON_parse "[1,]" = None /\ JSON_parse "{} {}" = None.
Proof. repeat split. Qed.

Section WithBackend.

Variable ai : Backend.

(** Every recipe is its request sent and its answer parsed, inside a [try]
    whose [catch] either rethrows or wraps the message. *)
Lemma perform_unfold (c : Call) :
  perform ai c =
  match bind (ai (request_of c)) parse_text with
  | Fulfilled j => Fulfilled j
  | Rejected e =>
      match fallback_message c with
      | Some fallback => Rejected (new_Error (or_else (message e) fallback))
      | None => Rejected e
      end
  end.
Proof.
  destruct c; simpl;
    unfold getMarketInsights, generateStockSenseiAnalysis, generateReversePrompt,
      refinePromptWithFeedback, generateVideoPromptFromImage,
      refineVideoPromptWithFeedback, generateWallpaperFusion, try_catch;
    match goal with |- context [bind ?x parse_text] => destruct (bind x parse_text) end;
    reflexivity.
Qed.

(** C2, amended: every gateway call either fails or returns exactly what
    [JSON.parse] yields on the text of the answer, where an absent or empty
    text is read as the empty object; a text that does not parse makes the
    call fail.  An answer without text is therefore returned as the empty
    object, and the presence of analysis and prompt is not checked. *)
Theorem perform_returns_the_parsed_text (c : Call) :
  match ai (request_of c) with
  | Rejected _ => exists e, perform ai c = Rejected e
  | Fulfilled response =>
      match JSON_parse (or_else (text response) "{}") with
      | Some j => perform ai c = Fulfilled j
      | None => exists e, perform ai c = Rejected e
      end
      /\ (truthy (text response) = false -> perform ai c = Fulfilled (JObject []))
  end.
Proof.
  rewrite perform_unfold. unfold bind, parse_text.
  destruct (ai (request_of c)) as [e|response].
  - destruct (fallback_message c); eauto.
  - split.
    + destruct (JSON_parse (or_else (text response) "{}")); [reflexivity|].
      destruct (fallback_message c); eauto.
    + intros F. destruct (text response) as [[|ch s]|]; try discriminate; reflexivity.
Qed.

(** C3, amended: when the backend call or the parse throws inside a recipe,
    the market insight and stock SEO recipes fail with an error whose message
    is the thrown one when it is not empty and the fixed message of the
    recipe otherwise, hence never empty; the five director recipes rethrow
    what was thrown, unchanged, and have no fallback of their own.  When
    nothing is thrown the recipe succeeds. *)
Theorem perform_failure_message (c : Call) :
  match thrown_inside ai c, fallback_message c with
  | Some cause, Some fallback =>
      perform ai c = Rejected (new_Error (or_else (message cause) fallback)) /\
      truthy (Some (or_else (message cause) fallback)) = true /\
      is_director_call c = false
  | Some cause, None =>
      perform ai c = Rejected cause /\ is_director_call c = true
  | None, _ => exists j, perform ai c = Fulfilled j
  end.
Proof.
  rewrite perform_unfold. unfold thrown_inside, bind, parse_text.
  destruct (ai (request_of c)) as [e|response].
  - destruct c; simpl; repeat split; apply JsFacts.or_else_truthy; reflexivity.
  - destruct (JSON_parse (or_else (text response) "{}")) as [j|]; [eauto|].
    destruct c; simpl; repeat split.
Qed.

End WithBackend.

(** C2, as stated, fails: when the answer carries no text, the reverse
    prompt recipe succeeds with the empty object, in which neither analysis
    nor prompt is present. *)
Lemma absent_body_is_a_success :
  perform silent_backend (ReversePrompt reference) = Fulfilled (JObject []) /\
  has "analysis" (JObject []) = false /\
  has "prompt" (JObject []) = false /\
  responseSchema (request_of (ReversePrompt reference)) = directorSchema /\
  existsb (fun field => has field (JObject [])) (required directorSchema) = false.
Proof. repeat split. Qed.

(** So does an answer that is well-formed JSON of another shape. *)
Example other_shape_is_a_success :
  perform (answering ("{" ++ quoted "title" ++ ": " ++ quoted "Neon Dusk" ++ "}"))
          (ReversePrompt reference)
  = Fulfilled (JObject [("title", JString "Neon Dusk")]).
Proof. reflexivity. Qed.

(** A text that is not JSON makes the call fail. *)
Example malformed_body_is_a_failure :
  perform (answering "Service unavailable") (ReversePrompt reference) = Rejected SyntaxError /\
  perform (answering "Service unavailable") (MarketInsights "2026-01-01")
    = Rejected (new_Error "Unexpected token in JSON").
Proof. split; reflexivity. Qed.

(** C3, as stated, fails: the reverse prompt recipe rethrows a failure that
    has no message as it is, so the error it fails with carries no message
    and no fallback. *)
Lemma director_recipe_has_no_fallback :
  perform mute_failure (ReversePrompt reference) = Rejected (mkError (Some EmptyString)) /\
  truthy (message (mkError (Some EmptyString))) = false.
Proof. repeat split. Qed.

(** The market insight recipe, on the same failure, has its fallback. *)
Example market_recipe_falls_back :
  perform mute_failure (MarketInsights "2026-01-01")
  = Rejected (new_Error "Market Insights fetch failed.").
Proof. reflexivity. Qed.

(** A parse failure is a failure with a message. *)
Lemma SyntaxError_has_message : truthy (message SyntaxError) = true.
Proof. reflexivity. Qed.

End GatewayProps.

(* ------------------------------------------------------------------ *)
(** ** The director workflow component *)

Module ResultDisplayProps.
Import Js Types Ui ResultDisplay Samples.

Lemma invariant_initial : invariant initial_config.
Proof.
  repeat split; simpl; try discriminate; auto; contradiction.
Qed.

Lemma nth_error_singleton {A : Type} (k k' : A) (i : nat) :
  nth_error [k] i = Some k' -> i = 0 /\ k' = k.
Proof.
  destruct i as [|[|i]]; simpl; intros H; inversion H; auto.
Qed.

Ltac split_bools :=
  repeat match goal with
         | H : (_ && _)%bool = true |- _ => apply andb_prop in H; destruct H
         | H : negb _ = true |- _ => apply negb_true_iff in H
         | H : negb _ = false |- _ => apply negb_false_iff in H
         end.

Ltac idle_inflight :=
  match goal with
  | H : ?l = [] \/ (exists k, ?l = [k] /\ _ = true) |- _ =>
      destruct H as [H | [? [_ H]]]; [ | congruence ]
  end.

Ltac enabled St G :=
  match type of St with
  | (if ?g then _ else _) = _ => destruct g eqn:G; [ | discriminate St ]
  end;
  unfold refine_tab_visible, next_step_tab_visible, actions_visible,
    refine_submit_disabled, advance_submit_disabled in G;
  simpl in G; split_bools.

Ltac stepped St := inversion St; subst; clear St; simpl.

Lemma invariant_step (p : Props) (e : Event) (c c' : Config) (effects : list Effect) :
  invariant c -> step p e c = Some (c', effects) -> invariant c'.
Proof.
  destruct c as [[ph tab fb ir gi bi bv] infl].
  unfold invariant, step. simpl.
  intros (One & Video & Adv) St.
  destruct e; simpl in St.
  - (* click_refine_tab *)
    enabled St G. stepped St.
    repeat split; auto; try (apply Video; assumption).
    destruct (Tab_eqb tab refine); reflexivity.
  - (* click_next_step_tab *)
    enabled St G. stepped St. destruct ph; try discriminate.
    repeat split; auto; discriminate.
  - (* change_feedback *)
    enabled St G. stepped St. tauto.
  - (* dictated *)
    stepped St. tauto.
  - (* uploaded *)
    unfold handleMediaUpload in St.
    match type of St with
    | context [Gateway.fileToGenerativePart ?f ?r] =>
        destruct (Gateway.fileToGenerativePart f r) as [err|[mime data]]
    end; stepped St; [ tauto | ].
    destruct setter; simpl; repeat split; auto; try (apply Video; assumption).
  - (* click_clear_generated *)
    enabled St G. stepped St. idle_inflight. subst infl.
    assert (ph = image_prompt) as ->.
    { destruct ph; [ reflexivity | ]. destruct (Video eq_refl). congruence. }
    repeat split; auto; try discriminate; contradiction.
  - (* click_clear_bad_image *)
    enabled St G. stepped St. tauto.
  - (* click_clear_bad_video *)
    enabled St G. stepped St. tauto.
  - (* click_refine_submit *)
    enabled St G. idle_inflight. subst infl.
    unfold handleRefineSubmit_begin, started in St. simpl in St.
    destruct (result (state p)); [ | stepped St; tauto ].
    match type of St with context [if ?g then _ else _] => destruct g end;
      [ stepped St; tauto | ].
    destruct ph.
    + stepped St. repeat split; eauto; try discriminate.
      intros [?|[]]; discriminate.
    + destruct gi; stepped St.
      * repeat split; eauto; apply Video; reflexivity.
      * repeat split; auto; apply Video; reflexivity.
  - (* click_advance_submit *)
    enabled St G. idle_inflight. subst infl.
    unfold handleVideoPromptSubmit_begin, started in St. simpl in St.
    destruct gi; stepped St; [ | tauto ].
    repeat split; eauto; apply Video; assumption.
  - (* settled *)
    destruct (nth_error infl i) as [k|] eqn:N; [ | discriminate ].
    destruct One as [One | [k0 [One R]]]; subst infl.
    + destruct i; discriminate.
    + apply nth_error_singleton in N. destruct N; subst i k.
      destruct k0, outcome; simpl in St; stepped St;
        repeat split; auto; try contradiction; try (apply Video; assumption);
        apply Adv; left; reflexivity.
  - (* click_generate *)
    enabled St G. stepped St. tauto.
  - (* click_retry *)
    enabled St G. stepped St. tauto.
  - (* click_reset *)
    stepped St. tauto.
Qed.

Lemma reachable_invariant (c : Config) : reachable c -> invariant c.
Proof.
  induction 1 as [ | c c' p e effects _ IH St ].
  - exact invariant_initial.
  - eapply invariant_step; eassumption.
Qed.

Lemma run_reachable (trace : list (Props * Event)) (c c' : Config) :
  reachable c -> run trace c = Some c' -> reachable c'.
Proof.
  revert c. induction trace as [|[p e] rest IH]; simpl; intros c R Run.
  - inversion Run; subst; exact R.
  - destruct (step p e c) as [[c1 effects]|] eqn:St; [ | discriminate ].
    apply (IH c1); [ eapply reachable_step; eassumption | exact Run ].
Qed.


(** *** The sample run *)

Example advance_run : run advance_trace initial_config = Some advancing.
Proof. reflexivity. Qed.

Example advance_settles :
  step (showing sample_result) (settled 0 (Fulfilled motion_result)) advancing
  = Some (in_video_phase, [onUpdateResult motion_result]).
Proof. reflexivity. Qed.

Example feedback_run : run feedback_trace in_video_phase = Some with_feedback.
Proof. reflexivity. Qed.

Lemma advancing_reachable : reachable advancing.
Proof.
  apply (run_reachable advance_trace initial_config); [ constructor | exact advance_run ].
Qed.

Lemma in_video_phase_reachable : reachable in_video_phase.
Proof.
  exact (reachable_step _ _ _ _ _ advancing_reachable advance_settles).
Qed.

(** *** The refine action *)

Lemma nothing_to_refine_with_eq (s : State) :
  nothing_to_refine_with s =
  (negb (truthy (Some (trim (feedbackText s))))
   && negb (match phase s with
            | image_prompt => present (badResultImage s)
            | video_prompt => present (badResultVideo s)
            end))%bool.
Proof. unfold nothing_to_refine_with. now rewrite JsFacts.not_truthy_trim. Qed.

(** A disabled submit button has nothing to refine with, in either phase. *)
Lemma disabled_submit_has_nothing (s : State) :
  refine_submit_disabled s = true -> nothing_to_refine_with s = true.
Proof.
  rewrite nothing_to_refine_with_eq. unfold refine_submit_disabled.
  destruct (negb (truthy (Some (trim (feedbackText s))))), (phase s),
    (present (badResultImage s)), (present (badResultVideo s)); simpl; auto.
Qed.

(** C4: wherever the refine action is on offer (a result is shown, nothing
    is loading or refining), submitting it with blank feedback and no
    bad-result media of the kind of the phase shows the validation message,
    changes nothing and dispatches nothing; in every other case it
    dispatches exactly the refine call of the phase and shows no message. *)
Theorem refine_submit_dispatch (c : Config) (p : Props) :
  reachable c -> actions_visible p (local c) = true ->
  if nothing_to_refine_with (local c)
  then handleRefineSubmit_begin p (local c) = (local c, [alert feedback_required], None)
  else exists call,
         handleRefineSubmit_begin p (local c)
           = (setIsRefining true (local c), [gateway call], Some refine_call) /\
         phase_refine_call p (local c) call.
Proof.
  intros R V. apply reachable_invariant in R. destruct R as (_ & Video & _).
  rewrite nothing_to_refine_with_eq.
  unfold actions_visible in V. split_bools.
  unfold handleRefineSubmit_begin, phase_refine_call.
  destruct (result (state p)) as [r|]; [ | discriminate ].
  match goal with |- context [if ?g then _ else _] => destruct g end; [ reflexivity | ].
  destruct (phase (local c)) eqn:Ph.
  - eexists; split; [ reflexivity | eauto ].
  - destruct (Video eq_refl) as [G _].
    destruct (generatedImage (local c)) as [g|]; [ | discriminate ].
    eexists; split; [ reflexivity | eauto ].
Qed.

(** The theorem at the end of the sample run: in the video phase, with the
    refine action on offer, feedback typed and no bad video attached. *)
Lemma with_feedback_reachable : reachable with_feedback.
Proof.
  apply (run_reachable feedback_trace in_video_phase);
    [ exact in_video_phase_reachable | exact feedback_run ].
Qed.

Lemma refine_submit_dispatch_witness :
  exists call,
    handleRefineSubmit_begin (showing motion_result) (local with_feedback)
      = (setIsRefining true (local with_feedback), [gateway call], Some refine_call) /\
    phase_refine_call (showing motion_result) (local with_feedback) call.
Proof.
  exact (refine_submit_dispatch with_feedback (showing motion_result)
           with_feedback_reachable eq_refl).
Defined.

(** The validation message can be met on the page: with a bad image left
    over from the image phase, the submit button of the video phase is
    enabled on blank feedback, and pressing it shows the message. *)
Example leftover_bad_image :
  run leftover_trace initial_config = Some leftover /\
  refine_submit_disabled (local leftover) = false /\
  step (showing motion_result) click_refine_submit leftover
    = Some (leftover, [alert feedback_required]).
Proof. repeat split. Qed.

(** *** The phase *)

Lemma In_remove_nth {A : Type} (x : A) (i : nat) (l : list A) :
  In x (remove_nth i l) -> In x l.
Proof.
  revert i. induction l as [|y l IH]; intros [|i]; simpl; auto.
  intros [E | I]; [ left; exact E | right; exact (IH i I) ].
Qed.

(** An advance call comes to be awaited only by submitting the advance
    action, which is enabled only with the confirmed image attached. *)
Lemma advance_call_origin (p : Props) (e : Event) (c c' : Config) (effects : list Effect) :
  step p e c = Some (c', effects) ->
  In advance_call (inflight c') -> ~ In advance_call (inflight c) ->
  e = click_advance_submit /\ present (generatedImage (local c)) = true.
Proof.
  intros St New Old.
  destruct c as [[ph tab fb ir gi bi bv] infl]. unfold step in St. simpl in *.
  destruct e; simpl in St;
    try (enabled St G; stepped St; simpl in New; contradiction);
    try (stepped St; simpl in New; contradiction).
  - (* uploaded *)
    unfold handleMediaUpload in St.
    match type of St with
    | context [Gateway.fileToGenerativePart ?f ?r] =>
        destruct (Gateway.fileToGenerativePart f r) as [err|[mime data]]
    end; stepped St; simpl in New; contradiction.
  - (* click_refine_submit *)
    enabled St G.
    unfold handleRefineSubmit_begin, started in St. simpl in St.
    destruct (result (state p));
      [ | stepped St; simpl in New; rewrite app_nil_r in New; contradiction ].
    match type of St with context [if ?g then _ else _] => destruct g end;
      [ stepped St; simpl in New; rewrite app_nil_r in New; contradiction | ].
    destruct ph; [ | destruct gi ]; stepped St; simpl in New;
      try (rewrite app_nil_r in New; contradiction);
      apply in_app_or in New; destruct New as [I | [E | []]];
      try contradiction; discriminate.
  - (* click_advance_submit *)
    enabled St G. split; [ reflexivity | assumption ].
  - (* settled *)
    destruct (nth_error infl i) as [k|] eqn:N; [ | discriminate ].
    destruct k, outcome as [err|r]; simpl in St; stepped St; simpl in New;
      apply In_remove_nth in New; contradiction.
Qed.

(** An event of a mounted component never takes the workflow out of the
    video phase; the phase changes only from image to video, when an awaited
    advance call settles successfully with the confirmed image attached; and
    an advance call comes to be awaited only by submitting the advance
    action with the image attached.  A full reset unmounts the component
    (see [reset_unmounts]); a component mounted anew starts from [initial]. *)
Theorem phase_is_one_directional (c c' : Config) (p : Props) (e : Event)
    (effects : list Effect) :
  reachable c -> step p e c = Some (c', effects) ->
  (phase (local c) = video_prompt -> phase (local c') = video_prompt) /\
  (phase (local c') <> phase (local c) ->
     phase (local c) = image_prompt /\ phase (local c') = video_prompt /\
     present (generatedImage (local c)) = true /\
     exists i r, e = settled i (Fulfilled r) /\ nth_error (inflight c) i = Some advance_call) /\
  (In advance_call (inflight c') -> ~ In advance_call (inflight c) ->
     e = click_advance_submit /\ present (generatedImage (local c)) = true).
Proof.
  intros R St.
  enough (Two : (phase (local c) = video_prompt -> phase (local c') = video_prompt) /\
    (phase (local c') <> phase (local c) ->
     phase (local c) = image_prompt /\ phase (local c') = video_prompt /\
     present (generatedImage (local c)) = true /\
     exists i r, e = settled i (Fulfilled r) /\ nth_error (inflight c) i = Some advance_call)).
  { destruct Two as [A B]. split; [ exact A | split; [ exact B | ] ].
    intros New Old. exact (advance_call_origin p e c c' effects St New Old). }
  apply reachable_invariant in R. destruct R as (_ & _ & Adv).
  destruct c as [[ph tab fb ir gi bi bv] infl]. simpl in *.
  assert (Same : forall s' l, c' = mkConfig s' l -> phase s' = ph ->
            (ph = video_prompt -> phase (local c') = video_prompt) /\
            (phase (local c') <> ph -> ph = image_prompt /\ phase (local c') = video_prompt /\
               present gi = true /\
               exists i r, e = settled i (Fulfilled r) /\ nth_error infl i = Some advance_call)).
  { intros s' l -> E. simpl. rewrite E. split; [ auto | congruence ]. }
  unfold step in St. simpl in St.
  destruct e; simpl in St;
    try (enabled St G; stepped St; eapply Same; reflexivity);
    try (stepped St; eapply Same; reflexivity).
  - (* uploaded *)
    unfold handleMediaUpload in St.
    match type of St with
    | context [Gateway.fileToGenerativePart ?f ?r] =>
        destruct (Gateway.fileToGenerativePart f r) as [err|[mime data]]
    end; stepped St; [ eapply Same; reflexivity | ].
    destruct setter; eapply Same; reflexivity.
  - (* click_refine_submit *)
    enabled St G.
    unfold handleRefineSubmit_begin, started in St. simpl in St.
    destruct (result (state p)); [ | stepped St; eapply Same; reflexivity ].
    match type of St with context [if ?g then _ else _] => destruct g end;
      [ stepped St; eapply Same; reflexivity | ].
    destruct ph; [ | destruct gi ]; stepped St; eapply Same; reflexivity.
  - (* click_advance_submit *)
    enabled St G.
    unfold handleVideoPromptSubmit_begin, started in St. simpl in St.
    destruct gi; stepped St; eapply Same; reflexivity.
  - (* settled *)
    destruct (nth_error infl i) as [k|] eqn:N; [ | discriminate ].
    destruct k, outcome as [err|r]; simpl in St; stepped St;
      try (eapply Same; reflexivity).
    split; [ reflexivity | ]. intros Ch.
    destruct ph; [ | congruence ].
    repeat split; eauto. apply Adv. eapply nth_error_In; eassumption.
Qed.

(** The theorem at the settlement of the advance call of the sample run. *)
Lemma phase_is_one_directional_witness :
  phase (local advancing) = image_prompt /\ phase (local in_video_phase) = video_prompt /\
  present (generatedImage (local advancing)) = true.
Proof.
  pose proof (phase_is_one_directional advancing in_video_phase (showing sample_result)
                (settled 0 (Fulfilled motion_result)) [onUpdateResult motion_result]
                advancing_reachable advance_settles) as (_ & Changed & _).
  destruct Changed as (A & B & C & _); [ discriminate | ].
  exact (conj A (conj B C)).
Defined.

(** *** The confirmed image *)

(** C10: in every configuration a mounted component can reach, the video
    phase has its confirmed image attached; hence submitting a refinement
    never takes the branch that fails for want of that image. *)
Theorem video_phase_has_its_image (c : Config) :
  reachable c ->
  (phase (local c) = video_prompt -> present (generatedImage (local c)) = true) /\
  (forall p, snd (fst (handleRefineSubmit_begin p (local c)))
             <> [console_error; alert refinement_failed]).
Proof.
  intros R. apply reachable_invariant in R. destruct R as (_ & Video & _).
  split; [ intros V; apply Video; exact V | ].
  intros p. unfold handleRefineSubmit_begin.
  destruct (result (state p)); [ | discriminate ].
  match goal with |- context [if ?g then _ else _] => destruct g end; [ discriminate | ].
  destruct (phase (local c)) eqn:Ph; [ discriminate | ].
  destruct (Video eq_refl) as [G _].
  destruct (generatedImage (local c)); [ discriminate | discriminate G ].
Qed.

Lemma video_phase_has_its_image_witness :
  phase (local in_video_phase) = video_prompt /\
  present (generatedImage (local in_video_phase)) = true.
Proof.
  split; [ reflexivity | ].
  exact (proj1 (video_phase_has_its_image in_video_phase in_video_phase_reachable) eq_refl).
Defined.

(** The branch exists in the handler: outside the reachable configurations,
    a video phase without its image fails the refinement at once. *)
Example missing_asset_branch :
  handleRefineSubmit_begin (showing motion_result)
    (mkState video_prompt refine "slower" false None None None)
  = (mkState video_prompt refine "slower" false None None None,
     [console_error; alert refinement_failed], None).
Proof. reflexivity. Qed.

End ResultDisplayProps.

(* ------------------------------------------------------------------ *)
(** ** Calls that fail and the active result *)

Module DirectorProps.
Import Js Types Ui Samples.

(** C1, as stated, fails for generation: with a result on the page, a
    generation call that fails leaves no result. *)
Lemma failed_generation_clears_the_result :
  result (App.generationState shown) = Some sample_result /\
  result (App.generationState
            (fst (App.handleGenerate (Rejected (new_Error "503")) shown))) = None.
Proof. split; reflexivity. Qed.

(** The state the counterexample starts from has a counterpart the page
    can be in: a result is shown while a generation is awaited, and when
    that generation fails the result is gone. *)
Example failed_generation_after_a_late_refinement :
  DirectorPage.run race_trace DirectorPage.initial = Some racing /\
  result (App.generationState (DirectorPage.page racing)) = Some motion_result /\
  option_map (fun s => result (App.generationState (DirectorPage.page s)))
    (DirectorPage.step (DirectorPage.generation_settled (Rejected (new_Error "503"))) racing)
  = Some None.
Proof. repeat split. Qed.

(** C1, amended: a refinement or advance call that fails does not call
    [onUpdateResult], so the active result of the page is as it was, and one
    that succeeds replaces it with the new response; a generation call that
    fails sets the active result to none and records as the error the
    message of the failure, or a fixed message when it has none; a
    generation call that succeeds replaces the active result.  Without
    media, generation does nothing. *)
Theorem active_result_after_a_call (e : Error) (r : DirectorResponse)
    (page : App.State) (s : ResultDisplay.State) :
  let after handler outcome :=
    result (App.generationState (App.callbacks (snd (handler outcome s)) page)) in
  let silent handler :=
    forallb (fun x => negb (is_onUpdateResult x)) (snd (handler (Rejected e) s)) in
  silent ResultDisplay.handleRefineSubmit_resume = true /\
  silent ResultDisplay.handleVideoPromptSubmit_resume = true /\
  after ResultDisplay.handleRefineSubmit_resume (Rejected e)
    = result (App.generationState page) /\
  after ResultDisplay.handleVideoPromptSubmit_resume (Rejected e)
    = result (App.generationState page) /\
  after ResultDisplay.handleRefineSubmit_resume (Fulfilled r) = Some r /\
  after ResultDisplay.handleVideoPromptSubmit_resume (Fulfilled r) = Some r /\
  match App.media page with
  | Some m =>
      App.generationState (fst (App.handleGenerate (Rejected e) page))
        = mkGenerationState false None
            (Some (or_else (message e) "Something went wrong during generation.")) /\
      App.generationState (fst (App.handleGenerate (Fulfilled r) page))
        = mkGenerationState false (Some r) None
  | None =>
      forall outcome, App.handleGenerate outcome page = (page, [])
  end.
Proof.
  cbv zeta. repeat split; try reflexivity.
  unfold App.handleGenerate.
  destruct (App.media page); [ split; reflexivity | reflexivity ].
Qed.

(** Scenario A of the specification: the photo is uploaded, the page holds
    it, generation succeeds, and the page shows the response with a workflow
    component in its initial, image prompt, phase. *)
Example upload_then_generate :
  FileUpload.handleFileChange (Some photo) "blob:1" (Fulfilled "data:image/jpeg;base64,AAAA")
    = [onFileSelect reference] /\
  App.handleGenerate (Fulfilled sample_result) (App.handleFileSelect reference App.initial)
    = (shown, [gateway (Gateway.ReversePrompt reference)]) /\
  DirectorPage.render shown = DirectorPage.workflow_view (showing sample_result) /\
  ResultDisplay.phase ResultDisplay.initial = ResultDisplay.image_prompt.
Proof. repeat split. Qed.

(** Scenario B: feedback without media is dispatched as a refinement of the
    image prompt; when it settles the response goes to the page and the
    phase is still the image prompt phase. *)
Example refine_with_feedback :
  let typed := ResultDisplay.setFeedbackText "make it brighter"
                 (ResultDisplay.setActiveTab ResultDisplay.refine ResultDisplay.initial) in
  ResultDisplay.handleRefineSubmit_begin (showing sample_result) typed
    = (ResultDisplay.setIsRefining true typed,
       [gateway (Gateway.RefinePrompt reference sample_result "make it brighter" None None)],
       Some ResultDisplay.refine_call) /\
  ResultDisplay.handleRefineSubmit_resume (Fulfilled motion_result)
      (ResultDisplay.setIsRefining true typed)
    = (ResultDisplay.initial, [onUpdateResult motion_result]) /\
  result (App.generationState (App.callbacks [onUpdateResult motion_result] shown))
    = Some motion_result.
Proof. repeat split. Qed.

(** *** The page and its component *)

Lemma child_after_callbacks (effects : list Effect) (s : DirectorPage.State) :
  DirectorPage.child (fold_left DirectorPage.callback effects s) = DirectorPage.child s.
Proof.
  revert s. induction effects as [|e effects IH]; intros s; simpl; [ reflexivity | ].
  rewrite IH. destruct e; simpl; try reflexivity.
  destruct (App.media (DirectorPage.page s)); reflexivity.
Qed.

Lemma child_after_reconcile (s : DirectorPage.State) (c : ResultDisplay.Config) :
  DirectorPage.child (DirectorPage.reconcile s) = Some c ->
  DirectorPage.child s = Some c \/
  (DirectorPage.child s = None /\ c = ResultDisplay.initial_config).
Proof.
  unfold DirectorPage.reconcile.
  destruct (DirectorPage.mounted (DirectorPage.page s)); simpl; [ | discriminate ].
  destruct (DirectorPage.child s); intros E; inversion E; auto.
Qed.

(** Whatever the page does, the component it has mounted is in a
    configuration of [ResultDisplay.reachable]: what is proved of those
    holds of the workflow on the page. *)
Lemma mounted_component_reachable (s : DirectorPage.State) (c : ResultDisplay.Config) :
  DirectorPage.reachable s -> DirectorPage.child s = Some c -> ResultDisplay.reachable c.
Proof.
  intros R. revert c.
  induction R as [ | s s' e R IH St ]; intros c C; [ discriminate | ].
  assert (Fresh : ResultDisplay.reachable ResultDisplay.initial_config) by constructor.
  destruct e; simpl in St.
  - destruct (DirectorPage.render (DirectorPage.page s)) as [ | [|] | ]; try discriminate.
    inversion St; subst; clear St.
    apply child_after_reconcile in C. destruct C as [C | [_ ->]]; auto.
  - inversion St; subst; clear St.
    apply child_after_reconcile in C. destruct C as [C | [_ ->]]; auto.
  - destruct (DirectorPage.render (DirectorPage.page s)) as [ | | p ]; try discriminate.
    destruct (DirectorPage.child s) as [c0|] eqn:C0; [ | discriminate ].
    destruct (ResultDisplay.step p e c0) as [[c1 effects]|] eqn:S1; [ | discriminate ].
    inversion St; subst; clear St.
    apply child_after_reconcile in C. rewrite child_after_callbacks in C. simpl in C.
    destruct C as [C | [_ ->]]; [ | exact Fresh ].
    inversion C; subst.
    exact (ResultDisplay.reachable_step c0 c p e effects (IH c0 eq_refl) S1).
  - destruct (DirectorPage.generating s); [ discriminate | ].
    inversion St; subst; clear St.
    apply child_after_reconcile in C. destruct C as [C | [_ ->]]; auto.
  - destruct (nth_error (DirectorPage.orphans s) i); [ | discriminate ].
    inversion St; subst; clear St.
    apply child_after_reconcile in C. rewrite child_after_callbacks in C.
    destruct C as [C | [_ ->]]; auto.
Qed.

(** The full reset of the director page unmounts the workflow component,
    whose callback [onReset] is [handleReset]. *)
Lemma reset_unmounts (page : App.State) :
  App.callback page onReset = App.handleReset page /\
  DirectorPage.mounted (App.handleReset page) = false /\
  App.generationState (App.handleReset page) = mkGenerationState false None None.
Proof.
  repeat split. unfold DirectorPage.mounted, DirectorPage.render. simpl.
  destruct (App.appMode page); reflexivity.
Qed.

(** Leaving the director page unmounts the component as well, the media and
    the result of the page staying in place: on return the page mounts a new
    component, which starts from its initial state. *)
Lemma leaving_unmounts (s : DirectorPage.State) :
  let away := DirectorPage.reconcile
                (DirectorPage.with_page
                   (App.setAppMode App.stocksensei (DirectorPage.page s)) s) in
  let back := DirectorPage.reconcile
                (DirectorPage.with_page
                   (App.setAppMode App.director (DirectorPage.page away)) away) in
  DirectorPage.child away = None /\
  App.media (DirectorPage.page back) = App.media (DirectorPage.page s) /\
  App.generationState (DirectorPage.page back) = App.generationState (DirectorPage.page s) /\
  DirectorPage.child back =
    match App.media (DirectorPage.page s) with
    | Some _ => Some ResultDisplay.initial_config
    | None => None
    end.
Proof.
  cbv zeta. destruct s as [[mode media g] child n orphans].
  unfold DirectorPage.reconcile, DirectorPage.mounted, DirectorPage.render. simpl.
  destruct media; simpl; repeat split.
Qed.

(** The generation handler of the wallpaper page clears the result on a
    failure in the same way. *)
Lemma wallpaper_generation_failure (e : Error) (s : WallpaperGenerator.State) (m : MediaFile) :
  WallpaperGenerator.styleImage s = Some m ->
  WallpaperGenerator.generationState (fst (WallpaperGenerator.handleGenerate (Rejected e) s))
  = mkGenerationState false None (Some (or_else (message e) "Wallpaper generation failed.")).
Proof.
  intros E. unfold WallpaperGenerator.handleGenerate. rewrite E. reflexivity.
Qed.

End DirectorProps.

(* ------------------------------------------------------------------ *)
(** ** The market insight fetcher *)

Module StockSenseiProps.
Import Js Types Json Ui StockSensei Samples.

(** C9, as stated, fails.  An answer without text is read by the recipe as
    the empty object and returned as a success; the refresh then replaces
    the snapshot with it, fails on reading the list of events and ends in
    its failure path, which logs: the prior snapshot is gone on a failed
    refresh.  And a refresh that succeeds selects the first event also when
    the prior selection is current: here the second event of the same
    snapshot was selected, and the first one is afterwards. *)
Lemma failed_refresh_replaces_the_snapshot :
  Gateway.getMarketInsights silent_backend "2026-01-01" = Fulfilled (JObject []) /\
  fetchInsights unconsulted "2026-01-01"
    (Gateway.getMarketInsights silent_backend "2026-01-01") browsing
  = (setInsights (JObject []) browsing,
     [gateway (Gateway.MarketInsights "2026-01-01"); console_error]) /\
  insights browsing = snapshot /\ snapshot <> JObject [] /\
  selectedEvent browsing = parsed valentine /\
  get "upcomingEvents" snapshot = Some (JArray [new_year; valentine]) /\
  fetchInsights unconsulted "2026-01-01" (Fulfilled snapshot) browsing
  = (setSelectedEvent (parsed new_year) browsing,
     [gateway (Gateway.MarketInsights "2026-01-01")]) /\
  new_year <> valentine.
Proof.
  split; [ reflexivity | ]. split; [ reflexivity | ]. split; [ reflexivity | ].
  split; [ unfold snapshot; discriminate | ].
  split; [ reflexivity | ]. split; [ reflexivity | ]. split; [ reflexivity | ].
  unfold new_year, valentine. discriminate.
Qed.

(** C9, amended: a refresh whose call fails leaves the snapshot and the
    selection as they were and only logs.  A refresh whose call answers
    replaces the snapshot with what was parsed; when the answer lists its
    upcoming events, the first one is selected if there is one, whatever the
    selection was before (absent, stale or current), and a list without
    events leaves the selection as it was.  In every case the loading mark
    is cleared, the error and result of the page are untouched and nothing
    is shown with an alert.  (An answer that carries no list of events ends
    in the failure path after the snapshot was replaced.) *)
Theorem fetchInsights_contract (greater_than_zero : json -> option bool) (today : string)
    (outcome : Settled json) (s : State) :
  let s' := fst (fetchInsights greater_than_zero today outcome s) in
  let effects := snd (fetchInsights greater_than_zero today outcome s) in
  isInsightLoading s' = false /\ error s' = error s /\ result s' = result s /\
  forallb (fun e => negb (is_alert e)) effects = true /\
  match outcome with
  | Rejected _ =>
      insights s' = insights s /\ selectedEvent s' = selectedEvent s /\
      effects = [gateway (Gateway.MarketInsights today); console_error]
  | Fulfilled data =>
      insights s' = data /\
      (forall events,
         get "upcomingEvents" data = Some (JArray events) ->
         effects = [gateway (Gateway.MarketInsights today)] /\
         selectedEvent s' = match events with
                            | first :: _ => parsed first
                            | [] => selectedEvent s
                            end) /\
      (get "upcomingEvents" data = None ->
         effects = [gateway (Gateway.MarketInsights today); console_error] /\
         selectedEvent s' = selectedEvent s) /\
      match lists_an_event greater_than_zero data with
      | Some true =>
          effects = [gateway (Gateway.MarketInsights today)] /\
          selectedEvent s' = first_event data
      | Some false =>
          effects = [gateway (Gateway.MarketInsights today)] /\
          selectedEvent s' = selectedEvent s
      | None =>
          effects = [gateway (Gateway.MarketInsights today); console_error] /\
          selectedEvent s' = selectedEvent s
      end
  end.
Proof.
  cbv zeta. unfold fetchInsights.
  destruct outcome as [e|data]; [ repeat split | ].
  assert (Listed : forall events,
            get "upcomingEvents" data = Some (JArray events) ->
            lists_an_event greater_than_zero data = Some (Nat.ltb 0 (List.length events)) /\
            first_event data = first (parsed (JArray events))).
  { intros events G. unfold lists_an_event, first_event, read.
    destruct data; try discriminate. simpl in G. rewrite G. split; reflexivity. }
  assert (Missing : get "upcomingEvents" data = None ->
            lists_an_event greater_than_zero data = None).
  { intros G. unfold lists_an_event, read.
    destruct data; try reflexivity. simpl in G. rewrite G. reflexivity. }
  destruct (lists_an_event greater_than_zero data) as [[|]|]; simpl;
    (split; [ reflexivity | ]); (split; [ reflexivity | ]); (split; [ reflexivity | ]);
    (split; [ reflexivity | ]); (split; [ reflexivity | ]);
    (split; [ | split; [ | split; reflexivity ] ]).
  - intros events G. destruct (Listed events G) as [A B]. rewrite B.
    destruct events; [ discriminate A | split; reflexivity ].
  - intros G. discriminate (Missing G).
  - intros events G. destruct (Listed events G) as [A B].
    destruct events; [ split; reflexivity | discriminate A ].
  - intros G. discriminate (Missing G).
  - intros events G. destruct (Listed events G) as [A B]. discriminate A.
  - intros G. split; reflexivity.
Qed.

End StockSenseiProps.

(* ------------------------------------------------------------------ *)
(** ** The style library *)

Module WallpaperProps.
Import Js Types Ui WallpaperGenerator Samples.

(** C7, as stated, fails: saving an untitled result whose source is the
    file photo.jpg names the entry after the time, where the stated order
    (title, then file name stem, then time label) would name it photo. *)
Lemma saved_result_ignores_the_file_name :
  map SavedStyle.name (savedStyles (component (fst (handleSaveStyle morning untitled_shown))))
    = ["Style 10:00:00"] /\
  specified_name (title untitled) (index (split "." (File.name photo)) 0) "10:00:00" = "photo".
Proof. split; reflexivity. Qed.

(** The same on import: without a title and without a stem the entry gets
    a fixed label, not one made from the time. *)
Example import_without_title_or_stem :
  import_autoName untitled (File.mk ".hidden" 10 "image/png") = "New Style".
Proof. reflexivity. Qed.

Example import_with_title :
  import_autoName (mkDirectorResponse (Some "Neon Dusk") "a" "p")
                  (File.mk "photo.jpg" 10 "image/jpeg") = "Neon Dusk".
Proof. reflexivity. Qed.

Example import_with_stem :
  import_autoName untitled (File.mk "my.photo.jpg" 10 "image/jpeg") = "my".
Proof. reflexivity. Qed.

Lemma fileToGenerativePart_settles (file : File.t) (read : Settled string) :
  match read with
  | Fulfilled url =>
      Gateway.fileToGenerativePart file read
        = Fulfilled (File.type file, index (split "," url) 1)
  | Rejected e => Gateway.fileToGenerativePart file read = Rejected e
  end.
Proof. destruct read; reflexivity. Qed.

(** C7, amended.  An imported style is named by the title of the analysis
    when it is not empty, else by the part of the file name before its
    first dot when that is not empty, else New Style.  A saved result is
    named by its title when it is not empty, else Style followed by the time
    label; the file name plays no part.  When every awaited step succeeds
    and the storage takes the write, the new entry is the first of the
    collection in memory and of the stored one, the others following
    unchanged; otherwise both collections are as before. *)
Theorem auto_naming (file : File.t) (ienv : ImportEnv) (senv : SaveEnv) (w : World) :
  (forall a, import_autoName a file =
     if truthy (title a) then or_else (title a) EmptyString
     else if truthy (index (split "." (File.name file)) 0)
          then or_else (index (split "." (File.name file)) 0) EmptyString
          else "New Style") /\
  (forall r label, save_name r label =
     if truthy (title r) then or_else (title r) EmptyString else "Style " ++ label) /\
  (let w' := fst (handleImportStyle (Some file) ienv w) in
   match import_read ienv, import_analysis ienv, import_thumbnail ienv,
         import_setItem_ok ienv with
   | Fulfilled _, Fulfilled a, Fulfilled thumbnailUrl, true =>
       savedStyles (component w')
         = imported_style file ienv a thumbnailUrl :: savedStyles (component w) /\
       stored w' = Some (savedStyles (component w'))
   | _, _, _, _ =>
       savedStyles (component w') = savedStyles (component w) /\ stored w' = stored w
   end) /\
  (let w' := fst (handleSaveStyle senv w) in
   match result (generationState (component w)), save_thumbnail_of senv (component w),
         (present_source (component w) && save_setItem_ok senv)%bool with
   | Some r, Fulfilled thumbnailUrl, true =>
       savedStyles (component w')
         = saved_style senv r thumbnailUrl :: savedStyles (component w) /\
       stored w' = Some (savedStyles (component w'))
   | _, _, _ =>
       savedStyles (component w') = savedStyles (component w) /\ stored w' = stored w
   end).
Proof.
  repeat split.
  - intros a. unfold import_autoName, or_opt.
    generalize (index (split "." (File.name file)) 0). intros stem.
    destruct (title a) as [[|c t]|], stem as [[|d u]|]; reflexivity.
  - intros r label. unfold save_name. destruct (title r) as [[|c t]|]; reflexivity.
  - cbv zeta. unfold handleImportStyle.
    destruct (import_read ienv) as [e|url]; simpl; [ auto | ].
    destruct (import_analysis ienv) as [e|a]; simpl; [ auto | ].
    destruct (import_thumbnail ienv) as [e|th]; simpl; [ auto | ].
    unfold persist. destruct (import_setItem_ok ienv); simpl; auto.
  - cbv zeta. unfold handleSaveStyle, save_thumbnail_of, present_source.
    destruct w as [[si su ct ss act g] st]; simpl.
    destruct (result g) as [r|]; [ | destruct si, act; try destruct (save_thumbnail senv); auto ].
    destruct si as [m|], act as [style|]; simpl;
      try destruct (save_thumbnail senv) as [e|th]; simpl; auto;
      unfold persist; destruct (save_setItem_ok senv); simpl; auto.
Qed.

(** *** Storage failures *)

Lemma In_setItem_persist (ok : bool) (updated v : list SavedStyle.t)
    (after_write on_failure : list Effect) (w : World) :
  (forall x, In x after_write \/ In x on_failure -> is_setItem x = false) ->
  In (localStorage_setItem v) (snd (persist ok updated after_write on_failure w)) ->
  v = updated.
Proof.
  intros Other. unfold persist.
  destruct ok; simpl; intros [E | I]; try (inversion E; reflexivity).
  - specialize (Other _ (or_introl I)). discriminate.
  - specialize (Other _ (or_intror I)). discriminate.
Qed.

(** Whatever the environment, what an import or a save writes is the new
    entry followed by the collection in memory. *)
Lemma writes_come_from_memory (file : File.t) (ienv : ImportEnv) (senv : SaveEnv)
    (w : World) (v : list SavedStyle.t) :
  In (localStorage_setItem v) (snd (handleImportStyle (Some file) ienv w)) \/
  In (localStorage_setItem v) (snd (handleSaveStyle senv w)) ->
  tl v = savedStyles (component w).
Proof.
  intros [I | I].
  - unfold handleImportStyle in I.
    destruct (Gateway.fileToGenerativePart file (import_read ienv)) as [e|[mime data]];
      simpl in I; [ intuition discriminate | ].
    destruct (import_analysis ienv) as [e|a]; simpl in I; [ intuition discriminate | ].
    destruct (import_thumbnail ienv) as [e|th]; simpl in I; [ intuition discriminate | ].
    match type of I with
    | context [persist ?ok ?u ?a ?f ?w1] =>
        destruct (persist ok u a f w1) as [w2 effects] eqn:P;
        assert (In (localStorage_setItem v) (snd (persist ok u a f w1))) as I'
    end.
    { rewrite P. simpl in *. destruct I as [E | I]; [ discriminate | exact I ]. }
    apply In_setItem_persist in I'; [ subst v; reflexivity | ].
    simpl. intros x [[] | [<- | []]]. reflexivity.
  - unfold handleSaveStyle in I.
    destruct (result (generationState (component w))) as [r|]; [ | contradiction ].
    destruct (styleImage (component w)) as [m|], (activeSavedStyle (component w)) as [style|];
      try contradiction;
      try (destruct (save_thumbnail senv) as [e|th]; [ simpl in I; intuition discriminate | ]);
      apply In_setItem_persist in I; try (subst v; reflexivity);
      simpl; intros x [[<- | []] | [<- | []]]; reflexivity.
Qed.

(** C8: when the storage refuses the write of an import or of a save, the
    user is told with the message of that path: a handler that reaches its
    write does the write and then shows that message, and nothing else
    after it.  The stored collection and the collection in memory are as
    before (a failed save changes nothing at all; a failed import only
    clears the loading mark and the error, as every import does), and,
    whether the storage takes a write or not, what is written is always
    built from the collection in memory. *)
Theorem storage_failure_is_reported (file : File.t) (ienv : ImportEnv) (senv : SaveEnv)
    (w : World) :
  import_setItem_ok ienv = false -> save_setItem_ok senv = false ->
  let imported := handleImportStyle (Some file) ienv w in
  let saved := handleSaveStyle senv w in
  let prev := generationState (component w) in
  component (fst imported)
    = setGenerationState (mkGenerationState false (result prev) None) (component w) /\
  stored (fst imported) = stored w /\
  fst saved = w /\
  (forall mimeType data a thumbnailUrl,
     Gateway.fileToGenerativePart file (import_read ienv) = Fulfilled (mimeType, data) ->
     import_analysis ienv = Fulfilled a ->
     import_thumbnail ienv = Fulfilled thumbnailUrl ->
     snd imported
     = [ gateway (Gateway.ReversePrompt
                    (mkMediaFile (Some file) (Some (import_previewUrl ienv)) image data
                       (Some mimeType) None));
         localStorage_setItem
           (imported_style file ienv a thumbnailUrl :: savedStyles (component w));
         alert import_storage_full ]) /\
  (forall r thumbnailUrl,
     result prev = Some r -> present_source (component w) = true ->
     save_thumbnail_of senv (component w) = Fulfilled thumbnailUrl ->
     snd saved
     = [ localStorage_setItem (saved_style senv r thumbnailUrl :: savedStyles (component w));
         alert save_storage_full ]) /\
  (forall v, In (localStorage_setItem v) (snd imported) ->
             In (alert import_storage_full) (snd imported)) /\
  (forall v, In (localStorage_setItem v) (snd saved) ->
             In (alert save_storage_full) (snd saved)) /\
  (forall ienv' senv' v,
     In (localStorage_setItem v) (snd (handleImportStyle (Some file) ienv' w)) \/
     In (localStorage_setItem v) (snd (handleSaveStyle senv' w)) ->
     tl v = savedStyles (component w)).
Proof.
  intros Fi Fs. cbv zeta.
  split; [ | split; [ | split; [ | split; [ | split; [ | split; [ | split ] ] ] ] ] ].
  - unfold handleImportStyle.
    destruct (Gateway.fileToGenerativePart file (import_read ienv)) as [e|[mime data]];
      [ reflexivity | ].
    destruct (import_analysis ienv) as [e|a]; [ reflexivity | ].
    destruct (import_thumbnail ienv) as [e|th]; [ reflexivity | ].
    rewrite Fi. reflexivity.
  - unfold handleImportStyle.
    destruct (Gateway.fileToGenerativePart file (import_read ienv)) as [e|[mime data]];
      [ reflexivity | ].
    destruct (import_analysis ienv) as [e|a]; [ reflexivity | ].
    destruct (import_thumbnail ienv) as [e|th]; [ reflexivity | ].
    rewrite Fi. reflexivity.
  - unfold handleSaveStyle.
    destruct (result (generationState (component w))); [ | reflexivity ].
    destruct (styleImage (component w)), (activeSavedStyle (component w));
      try reflexivity;
      try destruct (save_thumbnail senv); try reflexivity;
      rewrite Fs; reflexivity.
  - intros mime data a th Read Analysis Thumbnail. unfold handleImportStyle.
    rewrite Read, Analysis, Thumbnail, Fi. reflexivity.
  - intros r th Result Source Thumbnail. unfold handleSaveStyle.
    unfold present_source, save_thumbnail_of in *. rewrite Result.
    destruct (styleImage (component w)), (activeSavedStyle (component w));
      try discriminate;
      first [ rewrite Thumbnail, Fs; reflexivity
            | inversion Thumbnail; rewrite Fs; reflexivity ].
  - intros v. unfold handleImportStyle.
    destruct (Gateway.fileToGenerativePart file (import_read ienv)) as [e|[mime data]];
      [ simpl; intuition discriminate | ].
    destruct (import_analysis ienv) as [e|a]; [ simpl; intuition discriminate | ].
    destruct (import_thumbnail ienv) as [e|th]; [ simpl; intuition discriminate | ].
    rewrite Fi. simpl. auto.
  - intros v. unfold handleSaveStyle.
    destruct (result (generationState (component w))); [ | contradiction ].
    destruct (styleImage (component w)), (activeSavedStyle (component w));
      try contradiction;
      try (destruct (save_thumbnail senv); [ simpl; intuition discriminate | ]);
      rewrite Fs; simpl; auto.
  - intros ienv' senv' v. apply writes_come_from_memory.
Qed.

(** The theorem on a library of one style: the refused save and the refused
    import each do their write and then show their message, and the library
    is as it was. *)
Lemma storage_failure_is_reported_witness :
  fst (handleSaveStyle no_room_save full_library) = full_library /\
  snd (handleSaveStyle no_room_save full_library)
  = [ localStorage_setItem
        (saved_style no_room_save untitled "data:image/jpeg;base64,CCCC" :: library);
      alert save_storage_full ] /\
  stored (fst (handleImportStyle (Some paper) (import_env (Some "Paper Cut") false)
                 full_library)) = Some library /\
  snd (handleImportStyle (Some paper) (import_env (Some "Paper Cut") false) full_library)
  = [ gateway (Gateway.ReversePrompt
                 (mkMediaFile (Some paper) (Some "blob:3") image (Some "EEEE")
                    (Some "image/png") None));
      localStorage_setItem
        (imported_style paper (import_env (Some "Paper Cut") false)
           (mkDirectorResponse (Some "Paper Cut") "layered paper" "paper cut style")
           "data:image/jpeg;base64,FFFF" :: library);
      alert import_storage_full ].
Proof.
  pose proof (storage_failure_is_reported paper (import_env (Some "Paper Cut") false)
                no_room_save full_library eq_refl eq_refl) as H.
  cbv zeta in H. destruct H as (_ & S & W & I & V & _).
  split; [ exact W | split; [ | split; [ exact S | ] ] ].
  - exact (V untitled "data:image/jpeg;base64,CCCC" eq_refl eq_refl eq_refl).
  - exact (I "image/png" (Some "EEEE")
             (mkDirectorResponse (Some "Paper Cut") "layered paper" "paper cut style")
             "data:image/jpeg;base64,FFFF" eq_refl eq_refl eq_refl).
Defined.

Example import_without_room :
  snd (handleImportStyle (Some paper) (import_env (Some "Paper Cut") false) full_library)
  = [ gateway (Gateway.ReversePrompt
                 (mkMediaFile (Some paper) (Some "blob:3") image (Some "EEEE")
                    (Some "image/png") None));
      localStorage_setItem
        (SavedStyle.mk "1700000000001" "Paper Cut" "layered paper"
           "data:image/jpeg;base64,FFFF" :: library);
      alert import_storage_full ].
Proof. reflexivity. Qed.

(** Scenario D of the specification: an import whose analysis is titled
    puts an entry of that name first. *)
Example import_titled :
  map SavedStyle.name
    (savedStyles (component (fst (handleImportStyle (Some paper)
                                    (import_env (Some "Neon Dusk") true) full_library))))
  = ["Neon Dusk"; "Ink Wash"] /\
  map SavedStyle.id
    (savedStyles (component (fst (handleImportStyle (Some paper)
                                    (import_env (Some "Neon Dusk") true) full_library))))
  = ["1700000000001"; "1699999999999"].
Proof. split; reflexivity. Qed.

End WallpaperProps.

(* ================================================================== *)
(** * Further properties *)

(** ** The workflow component: calls, retries, dictation *)

Module ResultDisplayMore.
Import Js Types Ui ResultDisplay Samples.
Import ResultDisplayProps.

(** A gateway call is among the effects of an event only when the event is
    one of the two submits, pressed while the component is not refining; it
    is then the only effect, the component is refining afterwards and one
    more call is awaited. *)
Lemma gateway_effect_origin (p : Props) (e : Event) (c c' : Config) (effects : list Effect)
    (call : Gateway.Call) :
  step p e c = Some (c', effects) -> In (gateway call) effects ->
  (e = click_refine_submit \/ e = click_advance_submit) /\
  effects = [gateway call] /\
  isRefining (local c) = false /\ isRefining (local c') = true /\
  exists k, inflight c' = (inflight c ++ [k])%list.
Proof.
  intros St I.
  destruct c as [[ph tab fb ir gi bi bv] infl]. unfold step in St. simpl in *.
  destruct e; simpl in St;
    try (enabled St G; stepped St; simpl in I; contradiction);
    try (stepped St; simpl in I; contradiction).
  - (* uploaded *)
    unfold handleMediaUpload in St.
    match type of St with
    | context [Gateway.fileToGenerativePart ?f ?r] =>
        destruct (Gateway.fileToGenerativePart f r) as [err|[mime data]]
    end; stepped St; simpl in I; intuition discriminate.
  - (* click_refine_submit *)
    enabled St G. subst ir.
    unfold handleRefineSubmit_begin, started in St. simpl in St.
    destruct (result (state p)); [ | stepped St; simpl in I; contradiction ].
    match type of St with context [if ?g then _ else _] => destruct g end;
      [ stepped St; simpl in I; intuition discriminate | ].
    destruct ph; [ | destruct gi ]; stepped St; simpl in I;
      try (intuition discriminate);
      destruct I as [E | []]; inversion E; subst; eauto 10.
  - (* click_advance_submit *)
    enabled St G. subst ir.
    unfold handleVideoPromptSubmit_begin, started in St. simpl in St.
    destruct gi; [ | discriminate ]. stepped St.
    destruct I as [E | []]; inversion E; subst; eauto 10.
  - (* settled *)
    destruct (nth_error infl i) as [k|]; [ | discriminate ].
    destruct k, outcome as [err|r]; simpl in St; stepped St; simpl in I;
      intuition discriminate.
  - (* click_generate *)
    enabled St G. stepped St. simpl in I. intuition discriminate.
  - (* click_retry *)
    enabled St G. stepped St. simpl in I. intuition discriminate.
  - (* click_reset *)
    stepped St. simpl in I. intuition discriminate.
Qed.

(** What an event can have as effects. *)
Lemma effects_by_event (p : Props) (e : Event) (c c' : Config) (effects : list Effect) :
  step p e c = Some (c', effects) ->
  match e with
  | click_refine_submit =>
      effects = [] \/ effects = [alert feedback_required] \/
      effects = [console_error; alert refinement_failed] \/
      exists call, effects = [gateway call]
  | click_advance_submit => effects = [] \/ exists call, effects = [gateway call]
  | settled i (Fulfilled r) =>
      effects = [onUpdateResult r] /\ nth_error (inflight c) i <> None
  | settled i (Rejected _) =>
      effects = [console_error; alert refinement_failed] \/ effects = [alert analysis_failed]
  | uploaded _ _ _ _ => effects = [] \/ effects = [alert media_load_failed]
  | click_generate | click_retry => effects = [onGenerate]
  | click_reset => effects = [onReset]
  | _ => effects = []
  end.
Proof.
  intros St.
  destruct c as [[ph tab fb ir gi bi bv] infl]. unfold step in St. simpl in *.
  destruct e; simpl in St;
    try (enabled St G; stepped St; reflexivity);
    try (stepped St; reflexivity).
  - (* uploaded *)
    unfold handleMediaUpload in St.
    match type of St with
    | context [Gateway.fileToGenerativePart ?f ?r] =>
        destruct (Gateway.fileToGenerativePart f r) as [err|[mime data]]
    end; stepped St; auto.
  - (* click_refine_submit *)
    enabled St G.
    unfold handleRefineSubmit_begin, started in St. simpl in St.
    destruct (result (state p)); [ | stepped St; auto ].
    match type of St with context [if ?g then _ else _] => destruct g end;
      [ stepped St; auto | ].
    destruct ph; [ | destruct gi ]; stepped St; eauto 6.
  - (* click_advance_submit *)
    enabled St G.
    unfold handleVideoPromptSubmit_begin, started in St. simpl in St.
    destruct gi; stepped St; eauto.
  - (* settled *)
    destruct (nth_error infl i) as [k|]; [ | discriminate ].
    destruct k, outcome as [err|r]; simpl in St; stepped St;
      first [ split; [ reflexivity | discriminate ] | auto ].
Qed.

(** X1: what a component hands to its parent or to the gateway has one
    origin each.  A gateway call is dispatched only by one of the two
    submits, alone; a new result is handed over only when an awaited call
    settles successfully, and it is the response of that call; the parent's
    reset and generation are asked for only through their buttons. *)
Theorem effects_have_one_origin (p : Props) (e : Event) (c c' : Config)
    (effects : list Effect) :
  step p e c = Some (c', effects) ->
  (forall call, In (gateway call) effects ->
     (e = click_refine_submit \/ e = click_advance_submit) /\ effects = [gateway call]) /\
  (forall r, In (onUpdateResult r) effects ->
     exists i, e = settled i (Fulfilled r) /\ nth_error (inflight c) i <> None) /\
  (In onReset effects -> e = click_reset) /\
  (In onGenerate effects -> e = click_generate \/ e = click_retry).
Proof.
  intros St. split; [ | pose proof (effects_by_event p e c c' effects St) as B ].
  - intros call I.
    destruct (gateway_effect_origin p e c c' effects call St I) as (A & B & _).
    split; assumption.
  - destruct e; try destruct outcome as [err|r];
      repeat match type of B with
             | _ \/ _ => destruct B as [B | B]
             | _ /\ _ => destruct B as [B ?]
             | exists _, _ => destruct B as [? B]
             end;
      subst effects; simpl;
      (split; [ | split ]); try (intuition discriminate); auto.
    intros r0 [E | []]. inversion E; subst. eauto.
Qed.

Lemma effects_have_one_origin_witness :
  exists i, settled 0 (Fulfilled motion_result) = settled i (Fulfilled motion_result) /\
            nth_error (inflight advancing) i <> None.
Proof.
  exact (proj1 (proj2 (effects_have_one_origin (showing sample_result)
                         (settled 0 (Fulfilled motion_result)) advancing in_video_phase
                         [onUpdateResult motion_result] advance_settles))
           motion_result (or_introl eq_refl)).
Defined.

(** X2: one refine or advance call at a time.  In every configuration a
    mounted component can reach, at most one of its calls is awaited; while
    one is, the component is refining and none of its events dispatches a
    gateway call itself.  The retry link and the generate button are not
    guarded by the refining mark: where the props show them they still ask
    the page for a generation, which sends a call of its own. *)
Theorem one_call_at_a_time (c : Config) :
  reachable c -> inflight c <> [] ->
  List.length (inflight c) = 1 /\ isRefining (local c) = true /\
  (forall p e c' effects,
     step p e c = Some (c', effects) ->
     forallb (fun x => negb (is_gateway x)) effects = true) /\
  (forall p, truthy (error (state p)) = true ->
             step p click_retry c = Some (c, [onGenerate])) /\
  (forall p, present (result (state p)) = false -> isLoading (state p) = false ->
             step p click_generate c = Some (c, [onGenerate])) /\
  (forall outcome page m,
     App.media page = Some m ->
     snd (App.handleGenerate outcome page) = [gateway (Gateway.ReversePrompt m)]).
Proof.
  intros R Busy. apply reachable_invariant in R.
  destruct R as ([Idle | (k & One & Refining)] & _); [ contradiction | ].
  rewrite One. split; [ reflexivity | ]. split; [ exact Refining | ].
  split; [ | split; [ | split ] ].
  - intros p e c' effects St. apply forallb_forall. intros x I.
    destruct x; try reflexivity.
    destruct (gateway_effect_origin p e c c' effects c0 St I) as (_ & _ & Idle & _).
    congruence.
  - intros p Shown. unfold step. rewrite Shown. reflexivity.
  - intros p Absent Idle. unfold step. rewrite Absent, Idle. reflexivity.
  - intros outcome page m Media. unfold App.handleGenerate. rewrite Media. reflexivity.
Qed.

(** The theorem while the advance call of the sample run is awaited, under
    props that show an error: the retry link asks for a generation. *)
Lemma one_call_at_a_time_witness :
  List.length (inflight advancing) = 1 /\ isRefining (local advancing) = true /\
  step (mkProps reference None (mkGenerationState false None (Some "503")))
    click_retry advancing
  = Some (advancing, [onGenerate]).
Proof.
  destruct (one_call_at_a_time advancing advancing_reachable) as (A & B & _ & Retry & _);
    [ discriminate | ].
  exact (conj A (conj B (Retry (mkProps reference None
                                  (mkGenerationState false None (Some "503"))) eq_refl))).
Defined.

Lemma unset_set_refining (s : State) :
  isRefining s = false -> setIsRefining false (setIsRefining true s) = s.
Proof. destruct s; simpl; intros ->; reflexivity. Qed.

Lemma unset_refining (s : State) :
  isRefining s = false -> setIsRefining false s = s.
Proof. destruct s; simpl; intros ->; reflexivity. Qed.

(** X3: a call that fails gives the component back as it was when the
    action was submitted: the phase, the tab, the feedback and the attached
    media are all kept, so submitting again dispatches the same call. *)
Theorem failed_call_restores_state (p : Props) (s : State) (e : Error) :
  isRefining s = false ->
  match handleRefineSubmit_begin p s with
  | (s1, _, Some k) =>
      resume k (Rejected e) s1 = (s, [console_error; alert refinement_failed])
  | (_, _, None) => True
  end /\
  match handleVideoPromptSubmit_begin p s with
  | (s1, _, Some k) => resume k (Rejected e) s1 = (s, [alert analysis_failed])
  | (_, _, None) => True
  end.
Proof.
  intros Idle. unfold handleRefineSubmit_begin, handleVideoPromptSubmit_begin. split.
  - destruct (result (state p)); [ | exact I ].
    match goal with |- context [if ?g then _ else _] => destruct g end; [ exact I | ].
    destruct (phase s); [ | destruct (generatedImage s); [ | exact I ] ];
      simpl; rewrite (unset_set_refining s Idle); reflexivity.
  - destruct (generatedImage s); [ | exact I ].
    simpl. rewrite (unset_set_refining s Idle). reflexivity.
Qed.

Lemma failed_call_restores_state_witness :
  resume refine_call (Rejected (new_Error "503")) (setIsRefining true (local with_feedback))
  = (local with_feedback, [console_error; alert refinement_failed]).
Proof.
  exact (proj1 (failed_call_restores_state (showing motion_result) (local with_feedback)
                  (new_Error "503") eq_refl)).
Defined.

Lemma blank_append (a b : string) : blank (a ++ b) = (blank a && blank b)%bool.
Proof.
  induction a as [|c a IH]; simpl; [ reflexivity | ].
  rewrite IH. now rewrite andb_assoc.
Qed.

Lemma blank_after_dictation (transcript : string) (s : State) :
  blank (feedbackText (onresult transcript s))
  = (blank (feedbackText s) && blank transcript)%bool.
Proof.
  unfold onresult. destruct s as [ph tab fb ir gi bi bv]. simpl.
  destruct fb as [|c fb]; [ reflexivity | ].
  change (String c fb ++ " " ++ transcript) with (String c fb ++ (" " ++ transcript)).
  rewrite !blank_append. reflexivity.
Qed.

(** X4: dictation and the submit button.  After a transcript is appended to
    the feedback, the refine submit button is disabled exactly when it was
    disabled before and the transcript is blank: dictating anything but
    white space enables it, and dictation never disables it. *)
Theorem dictation_and_submit (transcript : string) (s : State) :
  refine_submit_disabled (onresult transcript s)
  = (refine_submit_disabled s && blank transcript)%bool.
Proof.
  unfold refine_submit_disabled.
  rewrite !JsFacts.not_truthy_trim, blank_after_dictation.
  destruct s as [ph tab fb ir gi bi bv]. unfold onresult. simpl.
  destruct (blank fb), (blank transcript), (present bi), (present bv); reflexivity.
Qed.

(** X5: the button and the handler do not test the same thing.  The refine
    submit button is disabled exactly when the handler would reject and no
    bad-result media of the other phase is attached either: with blank
    feedback and media of the other phase only, the button is enabled and
    pressing it gets the validation message. *)
Theorem submit_button_and_handler (s : State) :
  refine_submit_disabled s
  = (nothing_to_refine_with s && negb (present (other_phase_media s)))%bool.
Proof.
  unfold refine_submit_disabled, nothing_to_refine_with, other_phase_media.
  rewrite JsFacts.not_truthy_trim.
  destruct (blank (feedbackText s)), (phase s),
    (present (badResultImage s)), (present (badResultVideo s)); reflexivity.
Qed.

(** X6: the video phase offers no way back or forward.  In every reachable
    configuration in the video phase, whatever the props, the next-step tab
    cannot be toggled, the advance action cannot be submitted and the
    confirmed image cannot be cleared. *)
Theorem video_phase_offers_no_advance (c : Config) :
  reachable c -> phase (local c) = video_prompt ->
  forall p,
    step p click_next_step_tab c = None /\
    step p click_advance_submit c = None /\
    step p click_clear_generated c = None.
Proof.
  intros R V p. apply reachable_invariant in R. destruct R as (_ & Video & _).
  destruct (Video V) as [_ Closed].
  unfold step, next_step_tab_visible. rewrite V, Closed. simpl.
  rewrite !andb_false_r. repeat split.
Qed.

Lemma video_phase_offers_no_advance_witness :
  step (showing motion_result) click_next_step_tab in_video_phase = None /\
  step (showing motion_result) click_advance_submit in_video_phase = None /\
  step (showing motion_result) click_clear_generated in_video_phase = None.
Proof.
  exact (video_phase_offers_no_advance in_video_phase in_video_phase_reachable eq_refl
           (showing motion_result)).
Defined.

End ResultDisplayMore.

Module GatewayMore.
Import Js Types Gateway Samples.

Lemma split_without_separator (sep : ascii) (s : string) :
  includes s sep = false -> split sep s = [s].
Proof.
  induction s as [|c s IH]; simpl; [ reflexivity | ].
  intros N. apply orb_false_iff in N. destruct N as [C N].
  rewrite C, (IH N). reflexivity.
Qed.

Lemma split_at_first_separator (sep : ascii) (a b : string) :
  includes a sep = false ->
  split sep (a ++ String sep b) = a :: split sep b.
Proof.
  induction a as [|c a IH]; simpl.
  - intros _. now rewrite Ascii.eqb_refl.
  - intros N. apply orb_false_iff in N. destruct N as [C N].
    rewrite C, (IH N). reflexivity.
Qed.

(** X7: what the file reader's data URL becomes.  For a data URL made of a
    header without comma, a comma and a payload without comma, the part
    carries the payload, and its media type is the type of the file, not the
    one named in the header; a text without any comma gives a part without
    data, and the promise is still fulfilled. *)
Theorem data_url_payload (file : File.t) (header payload : string) :
  includes header "," = false -> includes payload "," = false ->
  fileToGenerativePart file (Fulfilled (header ++ "," ++ payload))
    = Fulfilled (File.type file, Some payload) /\
  fileToGenerativePart file (Fulfilled header) = Fulfilled (File.type file, None).
Proof.
  intros H P. unfold fileToGenerativePart, index.
  change (header ++ "," ++ payload) with (header ++ String "," payload).
  rewrite (split_at_first_separator "," header payload H).
  rewrite (split_without_separator "," payload P).
  rewrite (split_without_separator "," header H).
  split; reflexivity.
Qed.

Lemma data_url_payload_witness :
  fileToGenerativePart still (Fulfilled "data:image/jpeg;base64,BBBB")
    = Fulfilled ("image/png", Some "BBBB").
Proof.
  exact (proj1 (data_url_payload still "data:image/jpeg;base64" "BBBB" eq_refl eq_refl)).
Defined.

Lemma inline_optional_part (m : option MediaFile) :
  filter is_inline (optional_part m) = optional_part m.
Proof. destruct m; reflexivity. Qed.

(** X8: what a request carries.  Whatever the recipe and its arguments, the
    media parts of its request are the media it was given, each once and in
    the order of the arguments with the absent ones left out, and the request
    has exactly one text part; media of kind text is sent as text. *)
Theorem request_carries_the_media_given (c : Call) :
  inline_parts (request_of c) = map media_part (media_given c) /\
  List.length (text_parts (request_of c)) = 1.
Proof.
  unfold inline_parts, text_parts.
  destruct c as [today | media | media | media r f bad extra | media g
                | media g r f bad | [styleImage | style] subject custom]; simpl.
  - split; reflexivity.
  - destruct (type media); split; reflexivity.
  - split; reflexivity.
  - destruct bad, extra; split; reflexivity.
  - split; reflexivity.
  - destruct bad; split; reflexivity.
  - destruct subject, (truthy custom); split; reflexivity.
  - destruct subject, (truthy custom); split; reflexivity.
Qed.

(** X9: what a refinement sends of the previous result.  The video
    refinement sends nothing of it: two calls that differ in the previous
    result only are the same request and settle alike.  The image refinement
    sends its analysis only, neither its prompt nor its title. *)
Theorem previous_result_in_refinement (ai : Backend) (media generated : MediaFile)
    (r1 r2 : DirectorResponse) (feedback : string) (bad extra : option MediaFile) :
  perform ai (RefineVideoPrompt media generated r1 feedback bad)
    = perform ai (RefineVideoPrompt media generated r2 feedback bad) /\
  (analysis r1 = analysis r2 ->
   perform ai (RefinePrompt media r1 feedback bad extra)
     = perform ai (RefinePrompt media r2 feedback bad extra)).
Proof.
  split; [ reflexivity | ].
  intros A. simpl. unfold refinePromptWithFeedback, refinePromptWithFeedback_request.
  rewrite A. reflexivity.
Qed.

End GatewayMore.

Module IngestionMore.
Import Js Types Ui Samples.

(** X10: which message an ingestion shows.  The size is tested before the
    type: the size message is shown exactly for a file above the limit,
    whatever its type; the type message exactly for a file within the limit
    whose type starts with neither video/ nor image/; the processing message
    exactly for a file that passes both tests and whose read fails.  At most
    one message is shown. *)
Theorem which_message_is_shown (file : File.t) (previewUrl : string) (read : Settled string) :
  let effects := FileUpload.handleFileChange (Some file) previewUrl read in
  let known := (startsWith (File.type file) "video/"
                || startsWith (File.type file) "image/")%bool in
  (In (alert file_too_large) effects <-> (FileUpload.size_limit < File.size file)%N) /\
  (In (alert invalid_file_type) effects <->
     (File.size file <= FileUpload.size_limit)%N /\ known = false) /\
  (In (alert file_processing_failed) effects <->
     (File.size file <= FileUpload.size_limit)%N /\ known = true /\
     exists e, read = Rejected e) /\
  List.length (filter is_alert effects) <= 1.
Proof.
  cbv zeta. unfold FileUpload.handleFileChange, Gateway.fileToGenerativePart.
  destruct (N.ltb_spec FileUpload.size_limit (File.size file)) as [Big | Small];
    [ | destruct (startsWith (File.type file) "video/"),
                 (startsWith (File.type file) "image/"), read as [e|url] ];
    simpl;
    repeat match goal with
           | |- _ /\ _ => split
           | |- _ <-> _ => split
           | |- _ -> _ => intro
           | H : _ /\ _ |- _ => destruct H
           | H : _ \/ _ |- _ => destruct H
           | H : exists _, _ |- _ => destruct H
           | H : False |- _ => destruct H
           end;
    try discriminate; try lia; eauto.
Qed.

(** X11: uploads inside the workflow component are not validated.  Whatever
    the size and the type of the file, and whatever the component is doing,
    a file whose read succeeds is attached and nothing is reported: the
    media gets the kind of the slot it was uploaded to, the type of the file
    as its media type, and the payload of the data URL. *)
Theorem component_upload_is_unchecked (p : ResultDisplay.Props) (setter : ResultDisplay.Setter)
    (file : File.t) (previewUrl dataUrl : string) (c : ResultDisplay.Config) :
  exists m,
    ResultDisplay.step p (ResultDisplay.uploaded setter file previewUrl (Fulfilled dataUrl)) c
      = Some (ResultDisplay.mkConfig
                (ResultDisplay.apply_setter setter (Some m) (ResultDisplay.local c))
                (ResultDisplay.inflight c), []) /\
    Types.file m = Some file /\
    type m = ResultDisplay.forcedType setter /\
    mimeType m = Some (File.type file) /\
    base64Data m = index (split "," dataUrl) 1.
Proof.
  eexists. split; [ reflexivity | ]. repeat split.
Qed.

End IngestionMore.

Module DirectorMore.
Import Js Types Ui Samples.

(** X12: after a failed generation the page offers both ways to try again.
    Whatever the failure and whatever was shown before, the page still
    renders the workflow component for the same media, with an error that is
    never empty; the retry link and the generate button are both enabled,
    the refine controls are not rendered, and trying again sends the same
    call. *)
Theorem failed_generation_offers_retry (e : Error) (s : App.State) (m : MediaFile)
    (c : ResultDisplay.Config) :
  App.appMode s = App.director -> App.media s = Some m ->
  let failed := fst (App.handleGenerate (Rejected e) s) in
  exists p,
    DirectorPage.render failed = DirectorPage.workflow_view p /\
    ResultDisplay.media p = m /\
    truthy (error (ResultDisplay.state p)) = true /\
    ResultDisplay.step p ResultDisplay.click_retry c = Some (c, [onGenerate]) /\
    ResultDisplay.step p ResultDisplay.click_generate c = Some (c, [onGenerate]) /\
    ResultDisplay.step p ResultDisplay.click_refine_tab c = None /\
    snd (App.handleGenerate (Rejected e) failed) = [gateway (Gateway.ReversePrompt m)].
Proof.
  intros Mode Media. destruct s as [mode media g]. simpl in Mode, Media. subst mode media.
  assert (T : truthy (Some (or_else (message e) "Something went wrong during generation."))
              = true)
    by (apply JsFacts.or_else_truthy; reflexivity).
  unfold App.handleGenerate, App.handleGenerate_resume, App.handleGenerate_begin,
    DirectorPage.render.
  set (msg := or_else (message e) "Something went wrong during generation.") in *.
  cbn -[truthy]. eexists. split; [ reflexivity | ].
  unfold ResultDisplay.step, ResultDisplay.actions_visible. cbn -[truthy].
  rewrite T. repeat split.
Qed.

Lemma failed_generation_offers_retry_witness :
  exists p,
    DirectorPage.render (fst (App.handleGenerate (Rejected (new_Error "503")) shown))
      = DirectorPage.workflow_view p /\
    ResultDisplay.media p = reference /\
    truthy (error (ResultDisplay.state p)) = true /\
    ResultDisplay.step p ResultDisplay.click_retry with_feedback
      = Some (with_feedback, [onGenerate]) /\
    ResultDisplay.step p ResultDisplay.click_generate with_feedback
      = Some (with_feedback, [onGenerate]) /\
    ResultDisplay.step p ResultDisplay.click_refine_tab with_feedback = None /\
    snd (App.handleGenerate (Rejected (new_Error "503"))
           (fst (App.handleGenerate (Rejected (new_Error "503")) shown)))
      = [gateway (Gateway.ReversePrompt reference)].
Proof.
  exact (failed_generation_offers_retry (new_Error "503") shown reference with_feedback
           eq_refl eq_refl).
Defined.

(** X13: a generation outlives the media it was started for.  Whenever a
    generation is awaited, its answer becomes the result of the page beside
    whatever media is selected by then.  So when the user starts a
    generation, resets, selects another file and the first call then
    answers, the page shows the response made for the first file beside the
    second one, and awaits nothing more. *)
Theorem generation_outlives_its_media (m1 m2 : MediaFile) (r : DirectorResponse) :
  (forall s n,
     DirectorPage.generating s = S n ->
     exists s',
       DirectorPage.step (DirectorPage.generation_settled (Fulfilled r)) s = Some s' /\
       App.media (DirectorPage.page s') = App.media (DirectorPage.page s) /\
       App.generationState (DirectorPage.page s') = mkGenerationState false (Some r) None /\
       DirectorPage.generating s' = n) /\
  DirectorPage.run
    [ DirectorPage.select_file m1;
      DirectorPage.in_component ResultDisplay.click_generate;
      DirectorPage.in_component ResultDisplay.click_reset;
      DirectorPage.select_file m2;
      DirectorPage.generation_settled (Fulfilled r) ]
    DirectorPage.initial
  = Some (DirectorPage.mkState
            (App.mkState App.director (Some m2) (mkGenerationState false (Some r) None))
            (Some ResultDisplay.initial_config) 0 []).
Proof.
  split; [ | reflexivity ].
  intros s n Awaited. unfold DirectorPage.step. rewrite Awaited.
  eexists. split; [ reflexivity | ].
  unfold DirectorPage.reconcile. cbn [DirectorPage.page].
  destruct (DirectorPage.mounted _); repeat split.
Qed.

End DirectorMore.

Module WallpaperMore.
Import Js Types Ui WallpaperGenerator Samples.

Lemma filter_other_id_twice (id : string) (l : list SavedStyle.t) :
  let other := fun x => negb (String.eqb (SavedStyle.id x) id) in
  filter other (filter other l) = filter other l.
Proof.
  cbv zeta. induction l as [|x l IH]; simpl; [ reflexivity | ].
  destruct (String.eqb (SavedStyle.id x) id) eqn:E; simpl;
    [ exact IH | rewrite E, IH; reflexivity ].
Qed.

Lemma filter_other_id_fresh (id : string) (l : list SavedStyle.t) :
  (forall x, In x l -> SavedStyle.id x <> id) ->
  filter (fun x => negb (String.eqb (SavedStyle.id x) id)) l = l.
Proof.
  induction l as [|x l IH]; simpl; intros Fresh; [ reflexivity | ].
  destruct (String.eqb_spec (SavedStyle.id x) id) as [E | _].
  - destruct (Fresh x (or_introl eq_refl) E).
  - simpl. rewrite IH; [ reflexivity | ]. intros y I. apply Fresh. now right.
Qed.

Lemma deleted_collection (id : string) (w : World) :
  let w' := fst (handleDeleteStyle id true true w) in
  let updated :=
    filter (fun x => negb (String.eqb (SavedStyle.id x) id)) (savedStyles (component w)) in
  savedStyles (component w') = updated /\ stored w' = Some updated.
Proof.
  destruct w as [[st su tx saved active g] sto]. unfold handleDeleteStyle. simpl.
  destruct active as [a|]; [ destruct (String.eqb (SavedStyle.id a) id) | ]; split; reflexivity.
Qed.

(** X14: a confirmed deletion that the storage takes.  The collection
    becomes itself filtered by the id: it loses exactly the entries with
    the given id, all of them, the others keeping their order and their
    number; that collection is what is written, once, and what the storage
    then holds; a selected style is
    deselected exactly when it has that id; the result and the inputs are
    untouched; deleting again changes nothing more.  A declined
    confirmation does nothing at all. *)
Theorem delete_removes_the_style (id : string) (ok : bool) (w : World) :
  let w' := fst (handleDeleteStyle id true true w) in
  savedStyles (component w')
    = filter (fun x => negb (String.eqb (SavedStyle.id x) id)) (savedStyles (component w)) /\
  snd (handleDeleteStyle id true true w)
    = [localStorage_setItem (savedStyles (component w'))] /\
  (forall x, In x (savedStyles (component w')) <->
             In x (savedStyles (component w)) /\ SavedStyle.id x <> id) /\
  stored w' = Some (savedStyles (component w')) /\
  (forall a, activeSavedStyle (component w') = Some a <->
             activeSavedStyle (component w) = Some a /\ SavedStyle.id a <> id) /\
  generationState (component w') = generationState (component w) /\
  styleImage (component w') = styleImage (component w) /\
  fst (handleDeleteStyle id true true w') = w' /\
  handleDeleteStyle id false ok w = (w, []).
Proof.
  split; [ exact (proj1 (deleted_collection id w)) | ].
  destruct w as [[st su tx saved active g] sto]. unfold handleDeleteStyle. simpl.
  split; [ | split; [ | split; [ | split; [ | split; [ | split; [ | split ] ] ] ] ] ].
  - destruct active as [a|]; [ destruct (String.eqb (SavedStyle.id a) id) | ]; reflexivity.
  - intros x.
    assert (M : In x (filter (fun x => negb (String.eqb (SavedStyle.id x) id)) saved)
                <-> In x saved /\ SavedStyle.id x <> id).
    { rewrite filter_In. rewrite negb_true_iff.
      destruct (String.eqb_spec (SavedStyle.id x) id); intuition congruence. }
    destruct active as [a|]; [ destruct (String.eqb (SavedStyle.id a) id) | ]; exact M.
  - destruct active as [a|]; [ destruct (String.eqb (SavedStyle.id a) id) | ]; reflexivity.
  - intros a'.
    destruct active as [a|]; [ destruct (String.eqb_spec (SavedStyle.id a) id) | ]; simpl;
      split; try discriminate; try (intros [E N]; inversion E; subst; congruence);
      try (intros E; inversion E; subst; auto).
  - destruct active as [a|]; [ destruct (String.eqb (SavedStyle.id a) id) | ]; reflexivity.
  - destruct active as [a|]; [ destruct (String.eqb (SavedStyle.id a) id) | ]; reflexivity.
  - destruct active as [a|]; [ destruct (String.eqb (SavedStyle.id a) id) eqn:E | ]; simpl;
      rewrite ?E, (filter_other_id_twice id saved); reflexivity.
  - reflexivity.
Qed.

(** X15: a deletion whose write the storage refuses.  The handler has no
    guard around the write: the collection in memory has lost the entries,
    the storage still holds what it held, nothing is reported, and a
    selected style with that id stays selected though it is no longer in the
    collection.  Memory and storage then differ, so the entries come back
    with the next mount. *)
Theorem failed_delete_write_diverges (id : string) (w : World) (a : SavedStyle.t) :
  in_sync w -> In a (savedStyles (component w)) -> SavedStyle.id a = id ->
  let (w', effects) := handleDeleteStyle id true false w in
  ~ In a (savedStyles (component w')) /\
  stored w' = stored w /\
  ~ in_sync w' /\
  In a (savedStyles (component (mount (stored w')))) /\
  activeSavedStyle (component w') = activeSavedStyle (component w) /\
  forallb (fun x => negb (is_alert x)) effects = true.
Proof.
  intros Sync I E.
  destruct w as [[st su tx saved active g] sto]. unfold handleDeleteStyle, in_sync in *.
  simpl in *.
  assert (Gone : ~ In a (filter (fun x => negb (String.eqb (SavedStyle.id x) id)) saved)).
  { rewrite filter_In. rewrite E, String.eqb_refl. intros [_ F].
    discriminate. }
  split; [ exact Gone | ]. split; [ reflexivity | ].
  destruct sto as [l|]; [ subst l | subst saved; destruct I ].
  split; [ intros F; rewrite <- F in Gone; exact (Gone I) | ].
  repeat split. exact I.
Qed.

Lemma failed_delete_write_diverges_witness :
  let (w', effects) := handleDeleteStyle "1699999999999" true false full_library in
  ~ In ink_wash (savedStyles (component w')) /\
  stored w' = stored full_library.
Proof.
  pose proof (failed_delete_write_diverges "1699999999999" full_library
                ink_wash eq_refl (or_introl eq_refl) eq_refl)
    as D.
  simpl in D |- *. destruct D as (A & B & _). exact (conj A B).
Defined.

(** X16: saving and deleting.  When no entry of the collection has the id the
    clock gives a new style, a save that the storage takes followed by the
    confirmed deletion of the new entry gives back the collection as it was,
    in memory and in storage. *)
Theorem save_then_delete (env : SaveEnv) (w : World) (r : DirectorResponse)
    (m : MediaFile) (thumbnailUrl : string) :
  result (generationState (component w)) = Some r ->
  styleImage (component w) = Some m ->
  save_thumbnail env = Fulfilled thumbnailUrl ->
  save_setItem_ok env = true ->
  (forall x, In x (savedStyles (component w)) ->
             SavedStyle.id x <> Number_toString (save_now env)) ->
  let saved := fst (handleSaveStyle env w) in
  let deleted := fst (handleDeleteStyle (Number_toString (save_now env)) true true saved) in
  savedStyles (component saved)
    = saved_style env r thumbnailUrl :: savedStyles (component w) /\
  savedStyles (component deleted) = savedStyles (component w) /\
  stored deleted = Some (savedStyles (component w)).
Proof.
  intros R M T Ok Fresh. cbv zeta.
  assert (S : fst (handleSaveStyle env w)
              = mkWorld (setSavedStyles (saved_style env r thumbnailUrl
                                           :: savedStyles (component w)) (component w))
                        (Some (saved_style env r thumbnailUrl :: savedStyles (component w)))).
  { unfold handleSaveStyle, persist. rewrite R, M, T, Ok.
    destruct (activeSavedStyle (component w)); reflexivity. }
  rewrite S.
  match goal with
  | |- context [handleDeleteStyle ?i true true ?w0] =>
      pose proof (deleted_collection i w0) as D; cbv zeta in D; destruct D as [A B]
  end.
  rewrite A, B.
  assert (F : filter (fun x => negb (String.eqb (SavedStyle.id x) (Number_toString (save_now env))))
                (saved_style env r thumbnailUrl :: savedStyles (component w))
              = savedStyles (component w)).
  { cbn [filter saved_style SavedStyle.id]. rewrite String.eqb_refl. cbn [negb].
    apply filter_other_id_fresh. exact Fresh. }
  split; [ reflexivity | ].
  cbn [component savedStyles setSavedStyles]. rewrite F. split; reflexivity.
Qed.

Lemma save_then_delete_witness :
  savedStyles (component
    (fst (handleDeleteStyle (Number_toString (save_now morning)) true true
            (fst (handleSaveStyle morning full_library)))))
  = library.
Proof.
  refine (proj1 (proj2 (save_then_delete morning full_library untitled reference
                          "data:image/jpeg;base64,CCCC" eq_refl eq_refl eq_refl eq_refl _))).
  intros x [E | []]. subst x. discriminate.
Defined.

Lemma in_sync_persist (ok : bool) (updated : list SavedStyle.t)
    (after_write on_failure : list Effect) (w : World) :
  in_sync w -> in_sync (fst (persist ok updated after_write on_failure w)).
Proof. unfold persist. destruct ok; simpl; [ reflexivity | auto ]. Qed.

Lemma in_sync_finish_loading (w : World) : in_sync w -> in_sync (finish_loading w).
Proof. destruct w as [s sto]. exact (fun H => H). Qed.

(** X17: the library in memory and the one in storage stay the same.  When
    they agree before, they agree after an import, after a save and after a
    deletion, whatever these meet, provided the storage takes the write of a
    deletion (an import and a save leave both untouched when theirs is
    refused); and mounting the page again on that storage gives the
    collection back. *)
Theorem library_stays_in_sync (w : World) (file : option File.t) (ienv : ImportEnv)
    (senv : SaveEnv) (id : string) (confirmed : bool) :
  in_sync w ->
  in_sync (fst (handleImportStyle file ienv w)) /\
  in_sync (fst (handleSaveStyle senv w)) /\
  in_sync (fst (handleDeleteStyle id confirmed true w)) /\
  savedStyles (component (mount (stored w))) = savedStyles (component w).
Proof.
  intros Sync. split; [ | split; [ | split ] ].
  - unfold handleImportStyle. destruct file as [file|]; [ | exact Sync ].
    destruct (Gateway.fileToGenerativePart file (import_read ienv)) as [e|[mime data]];
      [ apply in_sync_finish_loading; exact Sync | ].
    destruct (import_analysis ienv) as [e|a];
      [ apply in_sync_finish_loading; exact Sync | ].
    destruct (import_thumbnail ienv) as [e|th];
      [ apply in_sync_finish_loading; exact Sync | ].
    match goal with
    | |- context [persist ?ok ?u ?a ?f ?w0] =>
        pose proof (in_sync_persist ok u a f w0 Sync) as P;
        destruct (persist ok u a f w0) as [w2 effects]
    end.
    apply in_sync_finish_loading. exact P.
  - unfold handleSaveStyle.
    destruct (result (generationState (component w))) as [r|]; [ | exact Sync ].
    destruct (styleImage (component w)) as [m|], (activeSavedStyle (component w)) as [a|];
      try exact Sync;
      try (destruct (save_thumbnail senv) as [e|th]; [ exact Sync | ]);
      apply in_sync_persist; exact Sync.
  - unfold handleDeleteStyle. destruct confirmed; [ | exact Sync ].
    destruct w as [[st su tx saved active g] sto]. simpl.
    destruct active as [a|]; [ destruct (String.eqb (SavedStyle.id a) id) | ]; reflexivity.
  - destruct w as [[st su tx saved active g] [l|]]; unfold in_sync in Sync; simpl in *;
      congruence.
Qed.

Lemma library_stays_in_sync_witness :
  in_sync (fst (handleSaveStyle morning full_library)) /\
  savedStyles (component (mount (stored full_library))) = library.
Proof.
  destruct (library_stays_in_sync full_library None (import_env None true) morning
              "1699999999999" true eq_refl) as (_ & A & _ & B).
  exact (conj A B).
Defined.

Lemma append_assoc (a b c : string) : (a ++ b) ++ c = a ++ (b ++ c).
Proof. induction a as [|x a IH]; simpl; [ reflexivity | now rewrite IH ]. Qed.

Lemma append_empty_r (a : string) : a ++ EmptyString = a.
Proof. induction a as [|x a IH]; simpl; [ reflexivity | now rewrite IH ]. Qed.

(** X18: a selected saved style is applied as text.  With a saved style
    selected, generating sends one call whose request carries no image of
    the style, even when a style image is attached as well: its only media
    part is the subject image when there is one, and its text names the
    analysis kept with the style, followed by the custom text when that is
    not empty. *)
Theorem applied_style_is_sent_as_text (outcome : Settled DirectorResponse) (s : State)
    (style : SavedStyle.t) :
  activeSavedStyle s = Some style ->
  exists call,
    snd (handleGenerate outcome s) = [gateway call] /\
    Gateway.inline_parts (Gateway.request_of call)
      = Gateway.optional_part (subjectImage s) /\
    Gateway.text_parts (Gateway.request_of call)
      = [Gateway.text_part
           (Gateway.literal
              ("Create cinematic wallpaper fusion prompt. Style: "
               ++ SavedStyle.analysis style ++ "."
               ++ match customText s with
                  | EmptyString => EmptyString
                  | custom => " User req: " ++ custom ++ "."
                  end))].
Proof.
  intros A. destruct s as [st su tx saved active g]. simpl in A. subst active.
  unfold handleGenerate. simpl.
  eexists. split; [ destruct st; reflexivity | ].
  unfold Gateway.inline_parts, Gateway.text_parts. simpl.
  unfold Gateway.generateWallpaperFusion_request. simpl.
  destruct su, tx; simpl; split; try reflexivity;
    rewrite ?append_assoc, ?append_empty_r; reflexivity.
Qed.

Lemma applied_style_is_sent_as_text_witness :
  exists call,
    snd (handleGenerate (Fulfilled untitled)
           (handleSelectStyle ink_wash
              (component full_library))) = [gateway call] /\
    Gateway.inline_parts (Gateway.request_of call) = [].
Proof.
  destruct (applied_style_is_sent_as_text (Fulfilled untitled)
              (handleSelectStyle ink_wash
                 (component full_library))
              ink_wash eq_refl) as (call & A & B & _).
  exists call. exact (conj A B).
Defined.

End WallpaperMore.

Module StockSenseiMore.
Import Js Types Ui StockSensei Samples.

(** X19: the analyze button and the analyze handler agree.  The button is
    disabled exactly when an analysis is loading or the handler would return
    at once; when it is enabled the handler sends one stock SEO call: for
    file input the selected media as it is, for text input a text item with
    the text as typed, not trimmed, which is never blank. *)
Theorem analyze_button_and_handler (outcome : Settled StockSenseiResponse) (s : State) :
  analyze_disabled s
    = (isLoading s || match analyze_payload s with Some _ => false | None => true end)%bool /\
  (analyze_payload s = None -> handleAnalyze outcome s = (s, [])) /\
  (forall payload, analyze_payload s = Some payload ->
     snd (handleAnalyze outcome s) = [gateway (Gateway.StockSeo payload)] /\
     match inputType s with
     | file_input => media s = Some payload
     | text_input =>
         payload = mkMediaFile None None text None None (Some (textInput s)) /\
         blank (textInput s) = false
     end).
Proof.
  unfold analyze_disabled, handleAnalyze, analyze_payload.
  pose proof (JsFacts.not_truthy_trim (textInput s)) as B.
  destruct (inputType s).
  - split; [ destruct (media s); reflexivity | ].
    split; [ intros ->; reflexivity | ].
    intros payload ->. split; reflexivity.
  - destruct (truthy (Some (trim (textInput s)))); simpl in B.
    + split; [ reflexivity | ]. split; [ discriminate | ].
      intros payload E. inversion E; subst. repeat split. symmetry. exact B.
    + split; [ reflexivity | ]. split; [ reflexivity | discriminate ].
Qed.

(** X20: what a failed analysis shows.  When the stock SEO call fails, the
    error shown is the message the gateway failed with, which is never
    empty, so the fallback text of the handler itself is never shown;
    nothing is loading afterwards and the result is as it was. *)
Theorem analysis_failure_shows_gateway_message (ai : Gateway.Backend) (s : State)
    (payload : MediaFile) (e : Error) :
  analyze_payload s = Some payload ->
  Gateway.perform ai (Gateway.StockSeo payload) = Rejected e ->
  let s' := fst (handleAnalyze (Rejected e) s) in
  error s' = message e /\ truthy (error s') = true /\
  isLoading s' = false /\ result s' = result s.
Proof.
  intros P F. rewrite GatewayProps.perform_unfold in F. simpl in F.
  unfold handleAnalyze. rewrite P. simpl.
  destruct (Gateway.bind _ Gateway.parse_text) as [cause|j]; [ | discriminate ].
  inversion F; subst e. simpl.
  assert (T : truthy (Some (or_else (message cause) "StockSensei SEO generation failed."))
              = true)
    by (apply JsFacts.or_else_truthy; reflexivity).
  destruct (or_else (message cause) "StockSensei SEO generation failed.") as [|c rest];
    [ discriminate | ].
  repeat split.
Qed.

Lemma analysis_failure_shows_gateway_message_witness :
  error (fst (handleAnalyze (Rejected (new_Error "StockSensei SEO generation failed."))
                (handleFileSelect reference initial)))
  = Some "StockSensei SEO generation failed.".
Proof.
  exact (proj1 (analysis_failure_shows_gateway_message mute_failure
                  (handleFileSelect reference initial) reference
                  (new_Error "StockSensei SEO generation failed.") eq_refl eq_refl)).
Defined.

End StockSenseiMore.

(* ------------------------------------------------------------------ *)
(** ** The phase on the page *)

Module DirectorPhase.
Import Js Types Ui Samples.
Import ResultDisplay.

Lemma mounted_same (a b : App.State) :
  App.appMode a = App.appMode b -> App.media a = App.media b ->
  DirectorPage.mounted a = DirectorPage.mounted b.
Proof.
  intros Mode Media. unfold DirectorPage.mounted, DirectorPage.render.
  rewrite Mode, Media. destruct (App.appMode b), (App.media b); reflexivity.
Qed.

Lemma reconcile_child (x : DirectorPage.State) :
  DirectorPage.page (DirectorPage.reconcile x) = DirectorPage.page x /\
  DirectorPage.child (DirectorPage.reconcile x)
  = if DirectorPage.mounted (DirectorPage.page x)
    then Some (match DirectorPage.child x with
               | Some c => c
               | None => initial_config
               end)
    else None.
Proof.
  unfold DirectorPage.reconcile.
  destruct (DirectorPage.mounted (DirectorPage.page x)); split; reflexivity.
Qed.

(** Every step ends in a reconciliation. *)
Lemma step_reconciles (e : DirectorPage.Event) (s s' : DirectorPage.State) :
  DirectorPage.step e s = Some s' -> exists x, s' = DirectorPage.reconcile x.
Proof.
  unfold DirectorPage.step. intros St.
  destruct e as [m | mode | ev | outcome | i outcome].
  - destruct (DirectorPage.render (DirectorPage.page s)) as [ | [|] | p];
      inversion St; eauto.
  - inversion St; eauto.
  - destruct (DirectorPage.render (DirectorPage.page s)) as [ | loading | p];
      try discriminate.
    destruct (DirectorPage.child s) as [c|]; [ | discriminate ].
    destruct (step p ev c) as [[c' effects]|]; inversion St; eauto.
  - destruct (DirectorPage.generating s); inversion St; eauto.
  - destruct (nth_error (DirectorPage.orphans s) i); inversion St; eauto.
Qed.

(** On a reachable page the component is there exactly when it is rendered. *)
Lemma child_when_mounted (s : DirectorPage.State) :
  DirectorPage.reachable s ->
  DirectorPage.mounted (DirectorPage.page s)
  = match DirectorPage.child s with Some _ => true | None => false end.
Proof.
  intros R. destruct R as [ | s s' e R St ]; [ reflexivity | ].
  destruct (step_reconciles e s s' St) as [x ->].
  destruct (reconcile_child x) as [P C]. rewrite P, C.
  destruct (DirectorPage.mounted (DirectorPage.page x)); reflexivity.
Qed.

Lemma kept_child (s x : DirectorPage.State) :
  DirectorPage.reachable s ->
  DirectorPage.child x = DirectorPage.child s ->
  DirectorPage.mounted (DirectorPage.page x) = DirectorPage.mounted (DirectorPage.page s) ->
  DirectorPage.child (DirectorPage.reconcile x) = DirectorPage.child s.
Proof.
  intros R C M. destruct (reconcile_child x) as [_ E].
  rewrite E, M, C, (child_when_mounted s R).
  destruct (DirectorPage.child s); reflexivity.
Qed.

Lemma callback_keeps_the_media (s : DirectorPage.State) (x : Effect) :
  x <> onReset ->
  App.appMode (DirectorPage.page (DirectorPage.callback s x))
    = App.appMode (DirectorPage.page s) /\
  App.media (DirectorPage.page (DirectorPage.callback s x))
    = App.media (DirectorPage.page s).
Proof.
  intros N. destruct x; try (split; reflexivity); [ | contradiction ].
  simpl. destruct (App.media (DirectorPage.page s)) eqn:Media; simpl;
    split; auto.
Qed.

Lemma callbacks_keep_the_media (effects : list Effect) (s : DirectorPage.State) :
  ~ In onReset effects ->
  DirectorPage.mounted (DirectorPage.page (fold_left DirectorPage.callback effects s))
  = DirectorPage.mounted (DirectorPage.page s).
Proof.
  revert s. induction effects as [|x effects IH]; intros s N; [ reflexivity | ].
  simpl. rewrite IH by (intros I; apply N; now right).
  destruct (callback_keeps_the_media s x) as [Mode Media];
    [ intros E; apply N; now left | ].
  apply mounted_same; assumption.
Qed.

(** Only the reset button asks the page for a reset. *)
Lemma reset_comes_from_its_button (p : Props) (ev : Event) (c c' : Config)
    (effects : list Effect) :
  step p ev c = Some (c', effects) -> In onReset effects -> ev = click_reset.
Proof.
  intros St I. pose proof (ResultDisplayMore.effects_by_event p ev c c' effects St) as B.
  destruct ev; try destruct outcome as [err|r]; try reflexivity;
    repeat match type of B with
           | _ \/ _ => destruct B as [B | B]
           | _ /\ _ => destruct B as [B ?]
           | exists _, _ => destruct B as [? B]
           end;
    subst effects; simpl in I; intuition discriminate.
Qed.

Lemma page_run_reachable (trace : list DirectorPage.Event) (s s' : DirectorPage.State) :
  DirectorPage.reachable s -> DirectorPage.run trace s = Some s' -> DirectorPage.reachable s'.
Proof.
  revert s. induction trace as [|e trace IH]; simpl; intros s R Run.
  - inversion Run; subst; exact R.
  - destruct (DirectorPage.step e s) as [s1|] eqn:St; [ | discriminate ].
    exact (IH s1 (DirectorPage.reachable_step s s1 e R St) Run).
Qed.

(** C5, as stated, fails: in the video phase, a visit to the stock page and
    back gives the workflow again in the image phase, with the media and the
    result of the video phase still on the page: nothing was reset. *)
Lemma leaving_the_page_restarts_the_phase :
  DirectorPage.run (awaiting_trace
                    ++ [DirectorPage.in_component (settled 0 (Fulfilled motion_result))])
    DirectorPage.initial = Some video_page /\
  option_map (fun c => phase (local c)) (DirectorPage.child video_page) = Some video_prompt /\
  DirectorPage.run [ DirectorPage.set_mode App.stocksensei;
                     DirectorPage.set_mode App.director ] video_page
  = Some back_on_page /\
  option_map (fun c => phase (local c)) (DirectorPage.child back_on_page)
  = Some image_prompt /\
  DirectorPage.page back_on_page = DirectorPage.page video_page /\
  App.media (DirectorPage.page back_on_page) = Some reference /\
  result (App.generationState (DirectorPage.page back_on_page)) = Some motion_result.
Proof. repeat split. Qed.

(** C5, amended: on the page, while the workflow component stays mounted no
    action takes it out of the video phase, and its phase changes only from
    image to video, when an awaited advance call settles successfully with
    the confirmed image attached; an advance call comes to be awaited only
    by submitting the advance action with that image attached.  The
    component is unmounted only by the reset button and by leaving for the
    stock page; it is mounted anew, at its initial state and so in the
    image phase, only when a file is selected and when the director page is
    entered again. *)
Theorem phase_on_the_page (s s' : DirectorPage.State) (e : DirectorPage.Event) :
  DirectorPage.reachable s -> DirectorPage.step e s = Some s' ->
  match DirectorPage.child s, DirectorPage.child s' with
  | Some c, Some c' =>
      (phase (local c) = video_prompt -> phase (local c') = video_prompt) /\
      (phase (local c') <> phase (local c) ->
         phase (local c) = image_prompt /\ phase (local c') = video_prompt /\
         present (generatedImage (local c)) = true /\
         exists i r, e = DirectorPage.in_component (settled i (Fulfilled r)) /\
                     nth_error (inflight c) i = Some advance_call) /\
      (In advance_call (inflight c') -> ~ In advance_call (inflight c) ->
         e = DirectorPage.in_component click_advance_submit /\
         present (generatedImage (local c)) = true)
  | Some c, None =>
      e = DirectorPage.in_component click_reset \/ e = DirectorPage.set_mode App.stocksensei
  | None, Some c' =>
      c' = initial_config /\
      ((exists m, e = DirectorPage.select_file m) \/ e = DirectorPage.set_mode App.director)
  | None, None => True
  end.
Proof.
  intros R St.
  pose proof (child_when_mounted s R) as Here.
  assert (Same : DirectorPage.child s' = DirectorPage.child s ->
            match DirectorPage.child s, DirectorPage.child s' with
            | Some c, Some c' =>
                (phase (local c) = video_prompt -> phase (local c') = video_prompt) /\
                (phase (local c') <> phase (local c) ->
                   phase (local c) = image_prompt /\ phase (local c') = video_prompt /\
                   present (generatedImage (local c)) = true /\
                   exists i r, e = DirectorPage.in_component (settled i (Fulfilled r)) /\
                               nth_error (inflight c) i = Some advance_call) /\
                (In advance_call (inflight c') -> ~ In advance_call (inflight c) ->
                   e = DirectorPage.in_component click_advance_submit /\
                   present (generatedImage (local c)) = true)
            | Some c, None =>
                e = DirectorPage.in_component click_reset \/
                e = DirectorPage.set_mode App.stocksensei
            | None, Some c' =>
                c' = initial_config /\
                ((exists m, e = DirectorPage.select_file m) \/
                 e = DirectorPage.set_mode App.director)
            | None, None => True
            end).
  { intros ->. destruct (DirectorPage.child s); [ | exact I ].
    split; [ auto | split; [ intros N; congruence | intros A B; contradiction ] ]. }
  unfold DirectorPage.step in St.
  destruct e as [m | mode | ev | outcome | i outcome].
  - (* select_file *)
    unfold DirectorPage.mounted in Here.
    destruct (DirectorPage.render (DirectorPage.page s)) as [ | [|] | p] eqn:V;
      try discriminate.
    inversion St as [E]. clear St.
    destruct (DirectorPage.child s) as [c|] eqn:Hc; [ discriminate | ].
    destruct (reconcile_child
                (DirectorPage.with_page (App.handleFileSelect m (DirectorPage.page s)) s))
      as [_ C].
    rewrite C. unfold DirectorPage.with_page. simpl.
    unfold DirectorPage.mounted, DirectorPage.render, App.handleFileSelect in *. simpl.
    destruct (App.appMode (DirectorPage.page s)); [ | discriminate ].
    rewrite Hc. split; [ reflexivity | left; eauto ].
  - (* set_mode *)
    inversion St as [E]. clear St.
    destruct (reconcile_child
                (DirectorPage.with_page (App.setAppMode mode (DirectorPage.page s)) s))
      as [_ C].
    rewrite C. unfold DirectorPage.with_page. simpl.
    unfold DirectorPage.mounted, DirectorPage.render, App.setAppMode in *. simpl.
    destruct mode, (DirectorPage.child s) as [c|];
      destruct (App.appMode (DirectorPage.page s)), (App.media (DirectorPage.page s));
      try discriminate; simpl; auto;
      try (split; [ auto | split; [ intros N; congruence | intros A B; contradiction ] ]).
  - (* an event of the component *)
    destruct (DirectorPage.render (DirectorPage.page s)) as [ | loading | p] eqn:V;
      try discriminate.
    destruct (DirectorPage.child s) as [c|] eqn:Hc; [ | discriminate ].
    destruct (step p ev c) as [[c' effects]|] eqn:Ev; [ | discriminate ].
    inversion St as [E]. clear St.
    match goal with
    | |- context [DirectorPage.reconcile ?x] =>
        destruct (reconcile_child x) as [_ C]; rewrite C; clear C;
        rewrite (DirectorProps.child_after_callbacks effects);
        destruct (DirectorPage.mounted
                    (DirectorPage.page (fold_left DirectorPage.callback effects _))) eqn:M
    end.
    + simpl.
      assert (Rc : reachable c)
        by exact (DirectorProps.mounted_component_reachable s c R Hc).
      destruct (ResultDisplayProps.phase_is_one_directional c c' p ev effects Rc Ev)
        as (Stay & Change & Origin).
      split; [ exact Stay | split ].
      * intros N. destruct (Change N) as (A & B & G & i & r & -> & Nth).
        repeat split; eauto.
      * intros New Old. destruct (Origin New Old) as [-> G].
        split; [ reflexivity | exact G ].
    + left. f_equal.
      destruct ev; try reflexivity;
        (assert (N : ~ In onReset effects)
           by (intros I; discriminate (reset_comes_from_its_button _ _ _ _ _ Ev I));
         rewrite (callbacks_keep_the_media effects _ N) in M; simpl in M;
         rewrite Here in M; discriminate).
  - (* the generation settles *)
    destruct (DirectorPage.generating s) as [|n]; [ discriminate | ].
    injection St as <-. apply Same.
    apply kept_child; [ exact R | reflexivity | apply mounted_same; reflexivity ].
  - (* a call of an unmounted component settles *)
    destruct (nth_error (DirectorPage.orphans s) i) as [k|]; [ | discriminate ].
    injection St as <-. apply Same.
    apply kept_child;
      [ exact R | rewrite DirectorProps.child_after_callbacks; reflexivity | ].
    rewrite callbacks_keep_the_media; [ reflexivity | ].
    destruct k, outcome as [err|r]; simpl; intuition discriminate.
Qed.

(** The theorem where the advance call of the sample run answers: the
    component stays mounted and goes from the image phase to the video
    phase, its confirmed image attached. *)
Lemma phase_on_the_page_witness :
  DirectorPage.child awaiting_page = Some advancing /\
  DirectorPage.child video_page = Some in_video_phase /\
  phase (local advancing) = image_prompt /\
  phase (local in_video_phase) = video_prompt /\
  present (generatedImage (local advancing)) = true.
Proof.
  pose proof (phase_on_the_page awaiting_page video_page
                (DirectorPage.in_component (settled 0 (Fulfilled motion_result)))
                (page_run_reachable awaiting_trace DirectorPage.initial awaiting_page
                   DirectorPage.reachable_initial eq_refl)
                eq_refl) as H.
  simpl in H. destruct H as (_ & Change & _).
  destruct Change as (A & B & C & _); [ discriminate | ].
  repeat split; assumption.
Defined.

End DirectorPhase.
